(** * nevergrad.functions.corefuncs: the benchmark function catalogue

    A shallow embedding of [nevergrad/functions/corefuncs.py].

    - numpy [float64] values are Rocq's primitive binary64 floats, so every
      arithmetic step below rounds, overflows and produces [nan] exactly as
      the Python code does (the model has one [nan]; the sign and the
      payload that binary64 gives it are not represented);
    - a numpy 1-D array is a [list float];
    - a Python call that may raise returns a [result];
    - the C mathematical library reached through numpy and [math]
      ([cos], [arctan], [exp], [pow]) is an interface, [Libm], carrying the
      special-value rules of C99 Annex F that the proofs rely on;
    - the reductions behind [a.dot(b)] (BLAS) and [np.sum] follow a
      schedule, [Kernels]: a tree of binary64 additions and fused
      multiply-adds that reads every index once.  The order of
      accumulation, the number of partial sums and the fusing belong to
      the library and the machine; the theorems hold for every
      schedule. *)

From Stdlib Require Import Bool String List ZArith Lia Floats Permutation.
Import ListNotations.

Set Warnings "-inexact-float".

(** ** Python outcomes *)

Inductive exn : Type :=
| AssertionError
| IndexError
| ValueError
| OverflowError
| ZeroDivisionError
| TypeError
| DuplicateName
| NotFound.

Inductive result (A : Type) : Type :=
| Ok (a : A)
| Raise (e : exn).

Arguments Ok {A} a.
Arguments Raise {A} e.

Definition bind {A B : Type} (r : result A) (k : A -> result B) : result B :=
  match r with
  | Ok a => k a
  | Raise e => Raise e
  end.

Notation "x <- r ;; k" := (bind r (fun x => k))
  (at level 61, r at next level, right associativity).

(** ** Discrete cores: [_onemax], [_leadingones], [_jump]

    The cores receive the output of a discretization, a list of integer
    categories.  Each coordinate goes through [int(round(w))]; the section
    keeps that conversion as [int_round], which is the identity on Python
    integers. *)

Module Discrete.

Section Cores.

Context {A : Type}.
Variable int_round : A -> Z.

Definition len (x : list A) : Z := Z.of_nat (length x).

(** [sum(1 if int(round(w)) == 1 else 0 for w in x)] *)
Fixpoint ones (x : list A) : Z :=
  match x with
  | [] => 0
  | w :: t => (if int_round w =? 1 then 1 else 0) + ones t
  end%Z.

Definition _onemax (x : list A) : Z := (len x - ones x)%Z.

(** The loop of [_leadingones]: [n] is [len(x)], [i] the index reached. *)
Fixpoint leadingones_loop (n i : Z) (x : list A) : Z :=
  match x with
  | [] => 0
  | x_ :: t =>
      if negb (int_round x_ =? 1) then n - i
      else leadingones_loop n (i + 1) t
  end%Z.

Definition _leadingones (x : list A) : Z := leadingones_loop (len x) 0 x.

(** The number of initial ones. *)
Fixpoint leading (x : list A) : Z :=
  match x with
  | [] => 0
  | w :: t => if int_round w =? 1 then 1 + leading t else 0
  end%Z.

Definition _jump (x : list A) : Z :=
  let n := len x in
  let m := (n / 4)%Z in
  let o := (n - _onemax x)%Z in
  if ((o =? n) || (o <=? n - m))%Z then (n - m - o)%Z else o.

(** The reading of [onemax] in the specification: the number of
    coordinates different from category 1, taken away from the length. *)
Fixpoint not_ones (x : list A) : Z :=
  match x with
  | [] => 0
  | w :: t => (if int_round w =? 1 then 0 else 1) + not_ones t
  end%Z.

Definition spec_onemax (x : list A) : Z := (len x - not_ones x)%Z.

End Cores.

(** Python integers: [int(round(w))] is [w]. *)
Definition int_round_int (w : Z) : Z := w.

End Discrete.

(** ** The function registry

    [registry = Registry[...]()] comes from [nevergrad.common.decorators],
    which is not part of the catalogue file; the catalogue only states which
    definitions are registered, in which order and with which information. *)

Module Registry.

Open Scope string_scope.

Record RegistryEntry : Type := mkEntry {
  name : string;
  no_transform : bool
}.

(** Modelled from the spec: the [Registry] class is missing.  It is a
    process-wide mapping from unique name to entry, kept here in
    registration order. *)
Definition t : Type := list RegistryEntry.

Definition empty : t := [].

(** Modelled from the spec: [names] of the missing [Registry] class returns
    the names in registration order. *)
Definition names (r : t) : list string := map name r.

Definition mem (n : string) (r : t) : bool :=
  existsb (fun e => String.eqb (name e) n) r.

(** Modelled from the spec: [register] of the missing [Registry] class
    fails with [DuplicateName] when the name is taken; [info] is the
    no-transform flag of [register_with_info], false for a plain
    registration. *)
Definition register (r : t) (n : string) (info : bool) : result t :=
  if mem n r then Raise DuplicateName else Ok (r ++ [mkEntry n info])%list.

(** Modelled from the spec: [get] of the missing [Registry] class fails
    with [NotFound] on an unknown name. *)
Definition get (r : t) (n : string) : result RegistryEntry :=
  match find (fun e => String.eqb (name e) n) r with
  | Some e => Ok e
  | None => Raise NotFound
  end.

(** How a module-level definition of the catalogue is decorated. *)
Inductive decoration : Type :=
| Plain                                   (* no decorator: not registered *)
| Register                                (* [@registry.register] *)
| RegisterWithInfo (no_transfrom : bool). (* [@registry.register_with_info] *)

(** The definitions of the catalogue, in source order.  [DelayedSphere] is
    registered through an instance, under its class name. *)
Definition definitions : list (string * decoration) :=
  [ ("_onemax", Plain); ("_leadingones", Plain); ("_jump", Plain);
    ("_styblinksitang", Plain);
    ("DelayedSphere", Register);
    ("sphere", Register); ("sphere1", Register); ("sphere2", Register);
    ("sphere4", Register);
    ("maxdeceptive", Register); ("sumdeceptive", Register);
    ("altcigar", Register); ("cigar", Register);
    ("altellipsoid", Register); ("ellipsoid", Register);
    ("rastrigin", Register); ("hm", Register); ("rosenbrock", Register);
    ("ackley", Plain); ("schwefel_1_2", Plain);
    ("griewank", Register);
    ("deceptiveillcond", Register); ("deceptivepath", Register);
    ("deceptivemultimodal", Register);
    ("lunacek", Register);
    ("hardonemax", RegisterWithInfo true); ("hardjump", RegisterWithInfo true);
    ("hardleadingones", RegisterWithInfo true);
    ("hardonemax5", RegisterWithInfo true); ("hardjump5", RegisterWithInfo true);
    ("hardleadingones5", RegisterWithInfo true);
    ("onemax", RegisterWithInfo true); ("jump", RegisterWithInfo true);
    ("leadingones", RegisterWithInfo true);
    ("onemax5", RegisterWithInfo true); ("jump5", RegisterWithInfo true);
    ("leadingones5", RegisterWithInfo true);
    ("genzcornerpeak", RegisterWithInfo true);
    ("minusgenzcornerpeak", RegisterWithInfo true);
    ("genzgaussianpeakintegral", Register);
    ("minusgenzgaussianpeakintegral", Register);
    ("slope", Register); ("linear", Register);
    ("st0", Register); ("st1", Register); ("st10", Register);
    ("st100", Register) ].

Definition defined (n : string) : bool :=
  existsb (fun d => String.eqb (fst d) n) definitions.

(** Executing the module: every decorated definition is registered when it
    is reached; the first failure aborts the import. *)
Fixpoint execute (ds : list (string * decoration)) (r : t) : result t :=
  match ds with
  | [] => Ok r
  | (n, Plain) :: ds' => execute ds' r
  | (n, Register) :: ds' => r' <- register r n false ;; execute ds' r'
  | (n, RegisterWithInfo b) :: ds' => r' <- register r n b ;; execute ds' r'
  end.

Definition registry : result t := execute definitions empty.

End Registry.


(** ** binary64 values and numpy arrays *)

Module Numpy.

Open Scope float_scope.

(** A 1-D [float64] array. *)
Definition vec : Type := list float.

(** [a != b] on floats ([nan != v] is true). *)
Definition neb (a b : float) : bool := negb (a =? b).

(** [float(k)] for a Python integer. *)
Definition float_of_int (k : Z) : float :=
  SF2Prim (binary_normalize prec emax k 0 false).

(** [int(v)]: truncation toward zero; infinities and [nan] raise. *)
Definition int_of_float (v : float) : result Z :=
  match Prim2SF v with
  | S754_zero _ => Ok 0%Z
  | S754_infinity _ => Raise OverflowError
  | S754_nan => Raise ValueError
  | S754_finite s m e =>
      let a := Z.shiftl (Zpos m) e in
      Ok (if s then (- a)%Z else a)
  end.

(** [x[i]], with Python's negative indices. *)
Definition getitem (x : vec) (i : Z) : result float :=
  let n := Z.of_nat (length x) in
  let j := if (i <? 0)%Z then (i + n)%Z else i in
  if ((j <? 0) || (n <=? j))%Z then Raise IndexError
  else match nth_error x (Z.to_nat j) with
       | Some v => Ok v
       | None => Raise IndexError
       end.

(** Element-wise operations with a broadcast scalar. *)
Definition add_scalar (x : vec) (c : float) : vec := map (fun v => v + c) x.
Definition sub_scalar (x : vec) (c : float) : vec := map (fun v => v - c) x.

(** [x ** 2] on an array: numpy squares by multiplication. *)
Definition square (x : vec) : vec := map (fun v => v * v) x.

(** [np.cumsum(x)] *)
Fixpoint cumsum_from (acc : float) (x : vec) : vec :=
  match x with
  | [] => []
  | v :: t => (acc + v) :: cumsum_from (acc + v) t
  end.

Definition cumsum (x : vec) : vec :=
  match x with
  | [] => []
  | v :: t => v :: cumsum_from v t
  end.

(** The largest size of an array, the largest value of the index type
    [npy_intp]. *)
Definition npy_intp_max : Z := (2 ^ 63 - 1)%Z.

(** [np.zeros(d)] *)
Definition zeros (d : nat) : vec := repeat 0 d.

(** [np.arange(0, num)] as floats. *)
Definition arange (num : nat) : vec :=
  map (fun i => float_of_int (Z.of_nat i)) (seq 0 num).

(** Replacing the last element, [y[-1] = stop]. *)
Definition set_last (y : vec) (stop : float) : vec :=
  match y with
  | [] => []
  | _ => removelast y ++ [stop]
  end.

(** [np.linspace(start, stop, num)] with the end point included. *)
Definition linspace (start stop : float) (num : nat) : vec :=
  let div := float_of_int (Z.of_nat (num - 1)) in
  let delta := stop - start in
  let y := arange num in
  let y :=
    if (1 <? num)%nat then
      let step := delta / div in
      if step =? 0 then map (fun v => (v / div) * delta) y
      else map (fun v => v * step) y
    else map (fun v => v * delta) y in
  let y := add_scalar y start in
  if (1 <? num)%nat then set_last y stop else y.

(** The builtin [max(a, b, c)]: the first argument is kept until a later
    one compares greater. *)
Definition pymax (a b : float) : float := if a <? b then b else a.
Definition pymax3 (a b c : float) : float := pymax (pymax a b) c.

(** [np.pi] *)
Definition pi : float := 0x1.921fb54442d18p+1.

End Numpy.

(** ** Classes of binary64 values used in the proofs *)

Module FloatClasses.

Open Scope float_scope.

(** The classes a correctly signed rounded result can fall in: a zero, an
    infinity or a finite number of sign [s]. *)
Definition signed (s : bool) (f : spec_float) : Prop :=
  f = S754_zero s \/ f = S754_infinity s \/ exists m e, f = S754_finite s m e.

(** A zero of either sign, or [nan]. *)
Definition zero_or_nan (x : float) : Prop :=
  x = 0 \/ x = neg_zero \/ x = nan.

(** A zero, an infinity or a finite number with the sign bit clear. *)
Definition nonneg_class (x : float) : Prop := signed false (Prim2SF x).

(** Anything but [nan]. *)
Definition number (x : float) : Prop := Prim2SF x <> S754_nan.

(** A zero, or a finite number of absolute value below [2^k]. *)
Definition below_pow2 (k : Z) (f : spec_float) : Prop :=
  match f with
  | S754_zero _ => True
  | S754_finite _ m e => (Z.pos (digits2_pos m) + e <= k)%Z
  | _ => False
  end.

(** A finite number of absolute value at least [2^(k-1)]. *)
Definition above_pow2 (k : Z) (f : spec_float) : Prop :=
  match f with
  | S754_finite _ m e => (k <= Z.pos (digits2_pos m) + e)%Z
  | _ => False
  end.

End FloatClasses.

(** ** The reduction kernels

    [a.dot(b)] on two [float64] vectors is numpy's [DOUBLE_dot], which
    adds the result of the BLAS routine [ddot] to [0.0], and [np.sum] is
    numpy's pairwise reduction.  How many partial sums these loops keep, in
    which order they add them and whether a product is fused with the
    addition that follows it depends on the library, the machine and the
    length of the array; no single sequence of roundings describes them
    all.  What they share is modelled: for each length the kernel follows a
    fixed schedule, a tree of binary64 operations in which every index
    occurs once. *)

Module Reduction.

Import Numpy.
Open Scope float_scope.

(** The fused multiply-add of IEEE 754 on the specification of binary64:
    [x * y + z] with a single rounding. *)
Definition SFfma (x y z : spec_float) : spec_float :=
  match x, y with
  | S754_nan, _ | _, S754_nan => S754_nan
  | S754_infinity _, S754_zero _ | S754_zero _, S754_infinity _ => S754_nan
  | S754_infinity sx, S754_infinity sy
  | S754_infinity sx, S754_finite sy _ _
  | S754_finite sx _ _, S754_infinity sy =>
      SFadd prec emax (S754_infinity (xorb sx sy)) z
  | S754_zero sx, S754_zero sy
  | S754_zero sx, S754_finite sy _ _
  | S754_finite sx _ _, S754_zero sy =>
      SFadd prec emax (S754_zero (xorb sx sy)) z
  | S754_finite sx mx ex, S754_finite sy my ey =>
      match z with
      | S754_nan => S754_nan
      | S754_infinity _ => z
      | S754_zero _ =>
          binary_round_aux prec emax (xorb sx sy) (Z.pos (mx * my)) (ex + ey)
                           loc_Exact
      | S754_finite sz mz ez =>
          let ep := (ex + ey)%Z in
          let e := Z.min ep ez in
          binary_normalize prec emax
            (cond_Zopp (xorb sx sy) (Z.pos (fst (shl_align (mx * my) ep e)))
             + cond_Zopp sz (Z.pos (fst (shl_align mz ez e))))%Z
            e false
      end
  end.

Definition fma (x y z : float) : float :=
  SF2Prim (SFfma (Prim2SF x) (Prim2SF y) (Prim2SF z)).

(** A schedule: an accumulator that starts at [0.0], the term of an index
    (a product for [dot], an element for [sum]), a term fused with the
    addition to a partial result, or the sum of two partial results. *)
Inductive shape : Type :=
| Acc0 : shape
| Term (i : nat) : shape
| FusedTerm (i : nat) (s : shape) : shape
| Plus (s1 s2 : shape) : shape.

(** The indices a schedule reads, in the order it reads them. *)
Fixpoint leaves (s : shape) : list nat :=
  match s with
  | Acc0 => []
  | Term i => [i]
  | FusedTerm i s' => i :: leaves s'
  | Plus s1 s2 => leaves s1 ++ leaves s2
  end.

(** A schedule run on the pairs of factors of a dot product. *)
Fixpoint eval_dot (l : list (float * float)) (s : shape) : float :=
  match s with
  | Acc0 => 0
  | Term i => fst (nth i l (0, 0)) * snd (nth i l (0, 0))
  | FusedTerm i s' =>
      fma (fst (nth i l (0, 0))) (snd (nth i l (0, 0))) (eval_dot l s')
  | Plus s1 s2 => eval_dot l s1 + eval_dot l s2
  end.

(** A schedule run on the elements of a sum; there is nothing to fuse. *)
Fixpoint eval_sum (x : vec) (s : shape) : float :=
  match s with
  | Acc0 => 0
  | Term i => nth i x 0
  | FusedTerm i s' => eval_sum x s' + nth i x 0
  | Plus s1 s2 => eval_sum x s1 + eval_sum x s2
  end.

(** A pair of factors whose product is an exact zero: one factor is a
    zero and the other is finite. *)
Definition zero_term (p : float * float) : bool :=
  ((fst p =? 0) && is_finite (snd p)) || (is_finite (fst p) && (snd p =? 0)).

(** A pair of factors whose product is [nan]. *)
Definition nan_term (p : float * float) : bool := is_nan (fst p * snd p).

End Reduction.

(** The schedules of the two kernels, for every length. *)
Class Kernels : Type := {
  dot_schedule : nat -> Reduction.shape;
  sum_schedule : nat -> Reduction.shape;
  dot_schedule_leaves : forall n,
    Permutation (Reduction.leaves (dot_schedule n)) (seq 0 n);
  sum_schedule_leaves : forall n,
    Permutation (Reduction.leaves (sum_schedule n)) (seq 0 n)
}.

(** [a.dot(b)]: [sum = 0.; sum += cblas_ddot(n, a, 1, b, 1)].  At every
    call of the catalogue the two arrays have the same length. *)
Definition dot {K : Kernels} (a b : Numpy.vec) : float :=
  (0 + Reduction.eval_dot (combine a b)
                          (dot_schedule (length (combine a b))))%float.

(** [np.sum(x)]: the identity [0.0] on an empty array, the pairwise
    reduction on any other. *)
Definition sum {K : Kernels} (x : Numpy.vec) : float :=
  match x with
  | [] => 0%float
  | _ => Reduction.eval_sum x (sum_schedule (length x))
  end.

(** ** The C mathematical library

    [np.cos], [np.arctan], [math.exp] and the scalar power [v ** p] end in
    the platform's libm.  Their results on ordinary arguments are not fixed
    by any standard; the interface keeps them abstract and records the
    special-value rules of C99 Annex F (F.10.1.5 for [cos], F.10.4.4 for
    [pow]), the exactness of [10 ** 6] and that [10 ** y] does not
    overflow for [y <= 308]. *)

Class Libm : Type := {
  cos : float -> float;
  arctan : float -> float;
  exp : float -> float;
  pow : float -> float -> float;
  cos_infinity : cos infinity = nan;
  cos_neg_infinity : cos neg_infinity = nan;
  pow_zero_exponent : forall x, pow x 0 = 1%float;
  pow_zero_base_two : pow 0 2 = 0%float;
  pow_ten_nan : pow 10 nan = nan;
  pow_ten_six : pow 10 6 = 1000000%float;
  pow_ten_finite : forall y,
    (y <=? 308)%float = true -> is_finite (pow 10 y) = true
}.

(** ** The benchmark functions *)

Module Corefuncs.

Import Numpy.
Open Scope float_scope.

(** [float("inf")] *)
Definition inf : float := infinity.

(** *** class [DelayedSphere] *)

(** [args] is the tuple of positional arguments of the call, [kwargs] its
    keyword arguments and [value] its result; only [args[0]] is read. *)
Definition get_postponing_delay
    (args : list vec) (kwargs : list (string * vec)) (value : float)
    : result float :=
  match args with
  | [] => Raise IndexError
  | x :: _ =>
      x0 <- getitem x 0 ;;
      if neb x0 0 then Ok (abs (1 / x0) / 1000) else Ok 0
  end.

(** *** Functions that need only the reduction kernels *)

Section WithKernels.

Context {K : Kernels}.

(** [DelayedSphere.__call__] *)
Definition DelayedSphere_call (x : vec) : float := sum (square x).

(** [assert x.ndim == 1] holds for every [vec]. *)
Definition sphere (x : vec) : float := dot x x.

Definition sphere1 (x : vec) : float := sphere (sub_scalar x 1).
Definition sphere2 (x : vec) : float := sphere (sub_scalar x 2).
Definition sphere4 (x : vec) : float := sphere (sub_scalar x 4).

Definition schwefel_1_2 (x : vec) : float := sphere (cumsum x).

End WithKernels.

(** *** Functions that call the mathematical library *)

Section WithLibm.

Context {K : Kernels} {L : Libm}.

(** [float(v) ** 2] on a Python float.  The interpreter settles the
    special cases itself ([nan], infinities, zero, base one), hands the
    absolute value of any other base to the C [pow] and turns an overflow
    of the result into [OverflowError]. *)
Definition float_pow_2 (v : float) : result float :=
  if is_nan v then Ok v
  else if is_infinity v then Ok (abs v)
  else if v =? 0 then Ok 0
  else
    let a := abs v in
    if a =? 1 then Ok 1
    else
      let r := pow a 2 in
      if is_infinity r then Raise OverflowError else Ok r.

Definition altcigar (x : vec) : result float :=
  xl <- getitem x (-1) ;;
  sq <- float_pow_2 xl ;;
  Ok (sq + 1000000 * sphere (removelast x)).

Definition cigar (x : vec) : result float :=
  x0 <- getitem x 0 ;;
  sq <- float_pow_2 x0 ;;
  Ok (sq + 1000000 * sphere (tl x)).

Definition ellipsoid_weights (dim : nat) : vec :=
  map (pow 10) (linspace 0 6 dim).

Definition ellipsoid (x : vec) : float :=
  let dim := length x in
  let weights := ellipsoid_weights dim in
  dot weights (square x).

Definition altellipsoid (y : vec) : float := ellipsoid (rev y).

Definition hm (x : vec) : float :=
  dot (square x) (map (fun v => 1.1 + cos (1 / v)) x).

(** [math.exp] raises [OverflowError] when a finite argument overflows. *)
Definition math_exp (v : float) : result float :=
  let r := exp v in
  if is_finite v && is_infinity r then Raise OverflowError else Ok r.

(** [math.sqrt] raises [ValueError] outside its domain. *)
Definition math_sqrt (v : float) : result float :=
  if v <? 0 then Raise ValueError else Ok (sqrt v).

(** [sphere(x) / dim] divides a Python float by a Python integer, which
    raises on [dim == 0]; [sum_cos / dim] is a numpy division. *)
Definition ackley (x : vec) : result float :=
  let dim := float_of_int (Z.of_nat (length x)) in
  let sum_cos := sum (map (fun v => cos (2 * pi * v)) x) in
  mean_sq <- (if dim =? 0 then Raise ZeroDivisionError else Ok (sphere x / dim)) ;;
  s <- math_sqrt mean_sq ;;
  e1 <- math_exp (-0.2 * s) ;;
  e2 <- math_exp (sum_cos / dim) ;;
  e3 <- math_exp 1 ;;
  Ok (-20 * e1 - e2 + 20 + e3).

Definition deceptiveillcond (x : vec) : result float :=
  if (length x <? 2)%nat then Raise AssertionError else
  x0 <- getitem x 0 ;;
  if neb x0 0 then
    x1 <- getitem x 1 ;;
    Ok (pymax3 (abs (arctan (x1 / x0)))
               (sqrt (pow x0 2 + pow x1 2))
               (if 0 <? x0 then 1 else 0))
  else Ok inf.

Definition deceptivepath (x : vec) : result float :=
  if (length x <? 2)%nat then Raise AssertionError else
  x0 <- getitem x 0 ;;
  x1 <- getitem x 1 ;;
  let distance := sqrt (pow x0 2 + pow x1 2) in
  if distance =? 0 then Ok 0 else
  let angle := if neb x1 0 then arctan (x0 / x1) else pi / 2 in
  let invdistance := if 0 <? distance then 1 / distance else 0 in
  if 0.1 <? abs (cos invdistance - angle) then Ok 1 else
  Ok distance.

(** [np.cos(k)] on a Python integer: numpy converts an integer that fits
    64 bits to [float64]; a larger one becomes an object array, on which
    the ufunc fails. *)
Definition np_cos_int (k : Z) : result float :=
  if ((- 2 ^ 63 <=? k) && (k <? 2 ^ 64))%Z then Ok (cos (float_of_int k))
  else Raise TypeError.

Definition deceptivemultimodal (x : vec) : result float :=
  if (length x <? 2)%nat then Raise AssertionError else
  x0 <- getitem x 0 ;;
  x1 <- getitem x 1 ;;
  let distance := sqrt (pow x0 2 + pow x1 2) in
  if distance =? 0 then Ok 0 else
  let angle := if neb x1 0 then arctan (x0 / x1) else pi / 2 in
  invdistance <-
    (if 0 <? distance then k <- int_of_float (1 / distance) ;; Ok (Some k)
     else Ok None) ;;
  c <- match invdistance with
       | Some k => np_cos_int k
       | None => Ok (cos 0)
       end ;;
  if 0.1 <? abs (c - angle) then Ok 1 else
  Ok distance.

(** The callable registered under a name, for the registered functions
    embedded above. *)
Definition callable (n : string) : option (vec -> result float) :=
  let total (f : vec -> float) := Some (fun x => Ok (f x)) in
  if String.eqb n "DelayedSphere" then total DelayedSphere_call
  else if String.eqb n "sphere" then total sphere
  else if String.eqb n "sphere1" then total sphere1
  else if String.eqb n "sphere2" then total sphere2
  else if String.eqb n "sphere4" then total sphere4
  else if String.eqb n "altcigar" then Some altcigar
  else if String.eqb n "cigar" then Some cigar
  else if String.eqb n "altellipsoid" then total altellipsoid
  else if String.eqb n "ellipsoid" then total ellipsoid
  else if String.eqb n "hm" then total hm
  else if String.eqb n "deceptiveillcond" then Some deceptiveillcond
  else if String.eqb n "deceptivepath" then Some deceptivepath
  else if String.eqb n "deceptivemultimodal" then Some deceptivemultimodal
  else None.

(** The reading of [cigar] and [altcigar] in the specification: the
    distinguished axis is the one scaled by [10^6], the other coordinates
    enter through their plain sphere. *)
Definition spec_cigar (x : vec) : result float :=
  x0 <- getitem x 0 ;;
  sq <- float_pow_2 x0 ;;
  Ok (1000000 * sq + sphere (tl x)).

Definition spec_altcigar (x : vec) : result float :=
  xl <- getitem x (-1) ;;
  sq <- float_pow_2 xl ;;
  Ok (1000000 * sq + sphere (removelast x)).

End WithLibm.

(** The delay law of the specification: [|1/x[0]|/1000] when [x[0]] is not
    zero, and [0] otherwise. *)
Definition spec_delay (x0 : float) : float :=
  if neb x0 0 then abs (1 / x0) / 1000 else 0.

(** [(x + k) - k == x] on every coordinate: the shift by [k] loses
    nothing to rounding. *)
Definition exact_shift (k : float) (x : vec) : bool :=
  forallb (fun p => fst p =? snd p) (combine (sub_scalar (add_scalar x k) k) x).

(** The first and the last vector of the standard basis in dimension [d]. *)
Definition basis_first (d : nat) : vec := 1 :: repeat 0 (d - 1).
Definition basis_last (d : nat) : vec := repeat 0 (d - 1) ++ [1].

(** Python's [a == b] on two outcomes that are floats. *)
Definition py_eq (a b : result float) : bool :=
  match a, b with
  | Ok u, Ok v => u =? v
  | _, _ => false
  end.

End Corefuncs.

(** ** Further functions of the catalogue *)

Module CorefuncsMore.

Import Numpy Corefuncs.
Open Scope float_scope.

(** Element-wise difference of two arrays of the same length. *)
Definition sub_arrays (a b : vec) : vec :=
  map (fun p => fst p - snd p) (combine a b).

Section WithKernels.

Context {K : Kernels}.

(** [x[:-1]] is [removelast x] and [x[1:]] is [tl x]. *)
Definition rosenbrock (x : vec) : float :=
  let x_m_1 := sub_scalar (removelast x) 1 in
  let x_diff := sub_arrays (square (removelast x)) (tl x) in
  100 * dot x_diff x_diff + dot x_m_1 x_m_1.

End WithKernels.

(** [np.maximum(a, b)]: the first argument is kept when it is [nan] or not
    below the second. *)
Definition maximum (a b : float) : float :=
  if (b <=? a) || is_nan a then a else b.

(** [np.max(x)]: the reduction of [np.maximum]; an empty array has no
    maximum. *)
Definition np_max (x : vec) : result float :=
  match x with
  | [] => Raise ValueError
  | v :: t => Ok (fold_left maximum t v)
  end.

Section WithKernels2.

Context {K : Kernels}.

(** [_styblinksitang(x, noise)]; [z] is the sample drawn by
    [np.random.normal(size=val.shape)]. *)
Definition _styblinksitang (x : vec) (noise : float) (z : float) : float :=
  let x2 := square x in
  let val :=
    dot x2 x2
    + sum (sub_arrays (map (fun v => 5 * v) x) (map (fun v => 16 * v) x2)) in
  39.16599 * float_of_int (Z.of_nat (length x)) + 0.5 * val + noise * z.

Definition st0 (x : vec) (z : float) : float := _styblinksitang x 0 z.
Definition st1 (x : vec) (z : float) : float := _styblinksitang x 1 z.
Definition st10 (x : vec) (z : float) : float := _styblinksitang x 10 z.
Definition st100 (x : vec) (z : float) : float := _styblinksitang x 100 z.

(** The value of [_styblinksitang] before the noise term is added. *)
Definition styblinksitang_base (x : vec) : float :=
  let x2 := square x in
  let val :=
    dot x2 x2
    + sum (sub_arrays (map (fun v => 5 * v) x) (map (fun v => 16 * v) x2)) in
  39.16599 * float_of_int (Z.of_nat (length x)) + 0.5 * val.

End WithKernels2.

Section WithLibm.

Context {K : Kernels} {L : Libm}.

(** The term shared by [maxdeceptive] and [sumdeceptive],
    [3 * x ** 2 - (2 / (3 ** (x - 2) ** 2 + 0.1))], on one coordinate. *)
Definition deceptive_term (v : float) : float :=
  3 * (v * v) - 2 / (pow 3 ((v - 2) * (v - 2)) + 0.1).

Definition maxdeceptive (x : vec) : result float :=
  np_max (map deceptive_term x).

Definition sumdeceptive (x : vec) : float :=
  sum (map deceptive_term x).

End WithLibm.

(** No coordinate is [nan]. *)
Definition all_numbers (x : vec) : bool :=
  forallb (fun v => negb (is_nan v)) x.

(** Some coordinate compares equal to zero. *)
Definition has_zero (x : vec) : bool :=
  existsb (fun v => v =? 0) x.

(** Negating every coordinate. *)
Definition negate (x : vec) : vec := map opp x.

End CorefuncsMore.

(** ** A reference mathematical library

    A software libm in binary64 arithmetic (argument reduction and truncated
    series).  It shows that the interface [Libm] is inhabited and lets the
    functions run on concrete inputs. *)

Module RefLibm.

Import Numpy.
Open Scope float_scope.

Definition e : float := 0x1.5bf0a8b145769p+1.
Definition ln2 : float := 0x1.62e42fefa39efp-1.

(** [b ** k] for an integer [k], by repeated multiplication. *)
Definition powi (b : float) (k : Z) : float :=
  match k with
  | Z0 => 1
  | Zpos p => Pos.iter_op mul p b
  | Zneg p => 1 / Pos.iter_op mul p b
  end.

Fixpoint cos_terms (n : nat) (k t r2 : float) : float :=
  match n with
  | O => 0
  | S n' => t + cos_terms n' (k + 2) (- t * r2 / ((k + 1) * (k + 2))) r2
  end.

Definition ref_cos (x : float) : float :=
  if is_finite x then
    match int_of_float (x / (2 * pi)) with
    | Ok q => let r := x - float_of_int q * (2 * pi) in cos_terms 24 0 1 (r * r)
    | Raise _ => nan
    end
  else nan.

Fixpoint exp_terms (n : nat) (k t r : float) : float :=
  match n with
  | O => 0
  | S n' => t + exp_terms n' (k + 1) (t * r / (k + 1)) r
  end.

Definition ref_exp (x : float) : float :=
  if is_nan x then nan
  else if x =? infinity then infinity
  else if x =? neg_infinity then 0
  else
    match int_of_float x with
    | Ok q => powi e q * exp_terms 24 0 1 (x - float_of_int q)
    | Raise _ => nan
    end.

Fixpoint atan_terms (n : nat) (k t r2 : float) : float :=
  match n with
  | O => 0
  | S n' => t / k + atan_terms n' (k + 2) (- t * r2) r2
  end.

Definition halve_angle (x : float) : float := x / (1 + sqrt (1 + x * x)).

Definition atan_unit (x : float) : float :=
  let r := halve_angle (halve_angle x) in
  4 * atan_terms 40 1 r (r * r).

Definition ref_arctan (x : float) : float :=
  if is_nan x then nan
  else if 1 <? abs x then
    if 0 <? x then pi / 2 - atan_unit (1 / x)
    else - (pi / 2) - atan_unit (1 / x)
  else atan_unit x.

Fixpoint atanh_terms (n : nat) (k t r2 : float) : float :=
  match n with
  | O => 0
  | S n' => t / k + atanh_terms n' (k + 2) (t * r2) r2
  end.

(** Natural logarithm of a positive finite float. *)
Definition ref_ln (x : float) : float :=
  let (m, ex) := frshiftexp x in
  let s := (m - 1) / (m + 1) in
  (of_uint63 ex - float_of_int shift) * ln2 + 2 * atanh_terms 40 1 s (s * s).

(** The largest finite binary64 number. *)
Definition max_float : float := 0x1.fffffffffffffp+1023.

Definition pow_series (x y : float) : float :=
  match int_of_float y with
  | Ok k =>
      if float_of_int k =? y then powi x k
      else if 0 <? x then ref_exp (y * ref_ln x)
      else if x =? 0 then (if 0 <? y then 0 else infinity)
      else nan
  | Raise _ =>
      if abs x <? 1 then (if 0 <? y then 0 else infinity)
      else (if 0 <? y then infinity else 0)
  end.

(** A power of 10 with an exponent up to 308 is representable: the value
    of the series is kept within the finite range there. *)
Definition ref_pow (x y : float) : float :=
  if y =? 0 then 1
  else if x =? 1 then 1
  else if is_nan x || is_nan y then nan
  else
    let r := pow_series x y in
    if (x =? 10) && (y <=? 308) then
      (if is_finite r then r else max_float)
    else r.

End RefLibm.

(** ** Reference reduction kernels

    Two pairs of schedules.  The plain loops add the terms one by one, in
    index order, to an accumulator that starts at [0.0].  The blocked loops
    keep several partial sums, the way numpy's pairwise summation and a
    vectorised BLAS kernel do.  They show that the interface [Kernels] is
    inhabited and let the functions run on concrete inputs. *)

Module RefKernels.

Import Reduction.

(** The plain loop. *)
Fixpoint chain (n : nat) : shape :=
  match n with
  | O => Acc0
  | S k => Plus (chain k) (Term k)
  end.

(** A schedule for [n] terms is accepted when it reads every index below
    [n] once; the plain loop stands in for one that does not. *)
Definition reads_each_once (n : nat) (s : shape) : bool :=
  (length (leaves s) <=? n)%nat
  && forallb (fun i => existsb (Nat.eqb i) (leaves s)) (seq 0 n).

Definition checked (n : nat) (s : shape) : shape :=
  if reads_each_once n s then s else chain n.

(** [res += a[i]] and [acc = fma(a[i], b[i], acc)] over a list of
    indices. *)
Definition add_terms (s : shape) (idx : list nat) : shape :=
  fold_left (fun acc i => Plus acc (Term i)) idx s.

Definition fuse_terms (s : shape) (idx : list nat) : shape :=
  fold_left (fun acc i => FusedTerm i acc) idx s.

(** Pairwise summation of the [n] elements from offset [o]: a plain loop
    below 8 elements; 8 partial sums, added in pairs, up to 128 elements;
    two halves beyond. *)
Definition block8 (o n : nat) : shape :=
  let r j :=
    add_terms (Term (o + j))
              (map (fun b => o + 8 * b + j)%nat (seq 1 (n / 8 - 1))) in
  add_terms
    (Plus (Plus (Plus (r 0%nat) (r 1%nat)) (Plus (r 2%nat) (r 3%nat)))
          (Plus (Plus (r 4%nat) (r 5%nat)) (Plus (r 6%nat) (r 7%nat))))
    (seq (o + 8 * (n / 8)) (n mod 8)).

Fixpoint pairwise (fuel o n : nat) : shape :=
  if (n <? 8)%nat then add_terms Acc0 (seq o n)
  else if (n <=? 128)%nat then block8 o n
  else
    match fuel with
    | O => add_terms Acc0 (seq o n)
    | S fuel' =>
        let n2 := (n / 2 - (n / 2) mod 8)%nat in
        Plus (pairwise fuel' o n2) (pairwise fuel' (o + n2) (n - n2))
    end.

Definition pairwise_schedule (n : nat) : shape :=
  checked n (Plus Acc0 (pairwise n 0 n)).

(** A dot product kernel with four vector accumulators of four lanes, each
    a chain of fused multiply-adds over blocks of 16 terms; the
    accumulators are added in pairs, then the lanes; the terms left over
    are added one by one. *)
Definition blocked16 (n : nat) : shape :=
  let lane k j :=
    fuse_terms Acc0 (map (fun b => 16 * b + 4 * k + j)%nat (seq 0 (n / 16))) in
  let lanes j :=
    Plus (Plus (lane 0%nat j) (lane 1%nat j))
         (Plus (lane 2%nat j) (lane 3%nat j)) in
  let body :=
    Plus (Plus (lanes 0%nat) (lanes 1%nat)) (Plus (lanes 2%nat) (lanes 3%nat)) in
  add_terms (if (n / 16 =? 0)%nat then Acc0 else body)
            (seq (16 * (n / 16)) (n mod 16)).

Definition blocked_schedule (n : nat) : shape := checked n (blocked16 n).

End RefKernels.

(** * Facts about binary64 arithmetic

    Derived from the specification of the primitive operations in terms of
    [SpecFloat]. *)

Module FloatFacts.

Import FloatClasses.
Open Scope float_scope.

Lemma shr_1_nonneg (mrs : shr_record) :
  (0 <= shr_m mrs)%Z -> (0 <= shr_m (shr_1 mrs))%Z.
Proof.
  destruct mrs as [m r s]. cbn [shr_m].
  destruct m as [|p|p]; [cbn; lia| |lia].
  destruct p; cbn; lia.
Qed.

Lemma iter_pos_nonneg (n : positive) (mrs : shr_record) :
  (0 <= shr_m mrs)%Z -> (0 <= shr_m (iter_pos shr_1 n mrs))%Z.
Proof.
  revert mrs. induction n as [n IH|n IH|]; intros mrs H; cbn [iter_pos].
  - apply IH, IH, shr_1_nonneg, H.
  - apply IH, IH, H.
  - apply shr_1_nonneg, H.
Qed.

Lemma shr_fexp_nonneg (m e : Z) (l : location) :
  (0 <= m)%Z -> (0 <= shr_m (fst (shr_fexp prec emax m e l)))%Z.
Proof.
  intros H. unfold shr_fexp, shr.
  assert (0 <= shr_m (shr_record_of_loc m l))%Z as H0.
  { destruct l as [|[]]; exact H. }
  destruct (fexp prec emax (Zdigits2 m + e) - e)%Z as [|p|p]; cbn [fst];
    [exact H0|apply iter_pos_nonneg, H0|exact H0].
Qed.

Lemma round_nearest_even_nonneg (m : Z) (l : location) :
  (0 <= m)%Z -> (0 <= round_nearest_even m l)%Z.
Proof.
  intros H. destruct l as [|[]]; cbn [round_nearest_even];
    try destruct (Z.even m); lia.
Qed.

Lemma binary_round_aux_signed (s : bool) (m e : Z) (l : location) :
  (0 <= m)%Z -> signed s (binary_round_aux prec emax s m e l).
Proof.
  intros H. unfold binary_round_aux.
  pose proof (shr_fexp_nonneg m e l H) as H1.
  destruct (shr_fexp prec emax m e l) as [mrs' e']. cbn [fst] in H1.
  pose proof (shr_fexp_nonneg _ e' loc_Exact
                (round_nearest_even_nonneg _ (loc_of_shr_record mrs') H1)) as H2.
  destruct (shr_fexp prec emax _ e' loc_Exact) as [mrs'' e'']. cbn [fst] in H2.
  destruct (shr_m mrs'') as [|p|p]; [left; reflexivity| |lia].
  destruct (e'' <=? emax - prec)%Z;
    [right; right; eauto|right; left; reflexivity].
Qed.

Lemma SFdiv_finite_signed (sx sy : bool) (mx my : positive) (ex ey : Z) :
  signed (xorb sx sy)
         (SF64div (S754_finite sx mx ex) (S754_finite sy my ey)).
Proof.
  unfold SF64div, SFdiv.
  destruct (SFdiv_core_binary prec emax (Z.pos mx) ex (Z.pos my) ey)
    as [[mz ez] lz] eqn:Hc.
  apply binary_round_aux_signed.
  unfold SFdiv_core_binary in Hc.
  set (sh := (ex - ey - _)%Z) in Hc.
  set (m' := match sh with Z0 => _ | Zpos _ => _ | Zneg _ => _ end) in Hc.
  assert (0 <= m')%Z as Hm'.
  { subst m'. destruct sh; [lia|apply Z.shiftl_nonneg; lia|lia]. }
  pose proof (Z.div_pos m' (Z.pos my) Hm' eq_refl) as Hq.
  unfold Z.div in Hq.
  destruct (Z.div_eucl m' (Z.pos my)) as [q r].
  injection Hc as <- _ _. exact Hq.
Qed.

(** The four classes of a float that is not [nan]. *)
Lemma not_nan_spec (x : float) :
  is_nan x = false -> Prim2SF x <> S754_nan.
Proof.
  unfold is_nan. rewrite eqb_spec. intros H E. rewrite E in H. discriminate.
Qed.

Lemma is_finite_spec (w : float) :
  is_finite w = true ->
  (exists s, Prim2SF w = S754_zero s) \/
  (exists s m e, Prim2SF w = S754_finite s m e).
Proof.
  unfold is_finite, is_nan, is_infinity.
  rewrite !eqb_spec, abs_spec.
  destruct (Prim2SF w) as [s|s| |s m e]; intros H.
  - left. exists s. reflexivity.
  - destruct s; discriminate.
  - discriminate.
  - right. exists s, m, e. reflexivity.
Qed.

Lemma SF2Prim_zero (s : bool) (x : float) :
  Prim2SF x = S754_zero s -> x = 0 \/ x = neg_zero.
Proof.
  intros H. rewrite <- (SF2Prim_Prim2SF x), H.
  destruct s; [right|left]; reflexivity.
Qed.

Lemma SF2Prim_nan (x : float) : Prim2SF x = S754_nan -> x = nan.
Proof. intros H. rewrite <- (SF2Prim_Prim2SF x), H. reflexivity. Qed.

(** A finite weight times a zero coordinate is a zero. *)
Lemma mul_finite_zero (w : float) :
  is_finite w = true -> w * 0 = 0 \/ w * 0 = neg_zero.
Proof.
  intros H.
  assert (exists s, Prim2SF (w * 0) = S754_zero s) as [s Hs].
  { rewrite mul_spec. change (Prim2SF 0) with (S754_zero false).
    destruct (is_finite_spec w H) as [[s ->]|(s & m & e & ->)];
      cbn; eauto. }
  exact (SF2Prim_zero s _ Hs).
Qed.

(** Zero times anything, and zero divided by anything, is a zero or [nan]. *)
Lemma zero_or_nan_of_spec (x : float) :
  (exists s, Prim2SF x = S754_zero s) \/ Prim2SF x = S754_nan ->
  zero_or_nan x.
Proof.
  intros [[s H]|H].
  - destruct (SF2Prim_zero s x H); [left|right; left]; assumption.
  - right; right. exact (SF2Prim_nan x H).
Qed.

Lemma zero_mul (v : float) : zero_or_nan (0 * v).
Proof.
  apply zero_or_nan_of_spec. rewrite mul_spec.
  change (Prim2SF 0) with (S754_zero false).
  destruct (Prim2SF v) as [s|s| |s m e]; cbn; eauto.
Qed.

Lemma zero_div (v : float) : zero_or_nan (0 / v).
Proof.
  apply zero_or_nan_of_spec. rewrite div_spec.
  change (Prim2SF 0) with (S754_zero false).
  destruct (Prim2SF v) as [s|s| |s m e]; cbn; eauto.
Qed.

Lemma zero_or_nan_mul_six (x : float) :
  zero_or_nan x -> zero_or_nan (x * 6).
Proof.
  intros [-> | [-> | ->]]; [left|right; left|right; right]; reflexivity.
Qed.

Lemma zero_or_nan_add_zero (x : float) :
  zero_or_nan x -> x + 0 = 0 \/ x + 0 = nan.
Proof.
  intros [-> | [-> | ->]]; [left|left|right]; reflexivity.
Qed.

(** [abs (1 / x) / 1000] is never below zero, and is not [nan], when [x]
    is a number different from zero. *)
Lemma delay_nonneg (x : float) :
  is_nan x = false -> (x =? 0) = false ->
  (0 <=? abs (1 / x) / 1000) = true.
Proof.
  intros Hnan Hz. pose proof (not_nan_spec x Hnan) as Hn.
  rewrite eqb_spec in Hz. rewrite leb_spec, div_spec, abs_spec, div_spec.
  change (Prim2SF 0) with (S754_zero false) in *.
  assert (Prim2SF 1 = S754_finite false 4503599627370496 (-52)) as -> by reflexivity.
  assert (Prim2SF 1000 = S754_finite false 8796093022208000 (-43)) as -> by reflexivity.
  destruct (Prim2SF x) as [s|s| |s m e]; [discriminate|reflexivity|congruence|].
  destruct (SFdiv_finite_signed false s 4503599627370496 m (-52) e)
    as [->|[->|(m1 & e1 & ->)]]; [reflexivity|reflexivity|].
  cbn [SFabs].
  destruct (SFdiv_finite_signed false false m1 8796093022208000 e1 (-43))
    as [->|[->|(m2 & e2 & ->)]]; reflexivity.
Qed.

End FloatFacts.

(** * More facts about binary64 arithmetic: [nan], signs and symmetry *)

Module FloatSigns.

Import FloatClasses FloatFacts.
Open Scope float_scope.

Lemma is_nan_true (x : float) : is_nan x = true -> x = nan.
Proof.
  unfold is_nan. rewrite eqb_spec. intros H. apply SF2Prim_nan.
  destruct (Prim2SF x) as [s|s| |s m e]; [destruct s| destruct s|reflexivity|];
    try discriminate.
  unfold SFeqb, SFcompare in H.
  rewrite Z.compare_refl in H.
  replace (Pos.compare_cont Eq m m) with Eq in H
    by (symmetry; apply Pos.compare_refl).
  destruct s; discriminate.
Qed.

Lemma number_not_nan (x : float) : is_nan x = false -> number x.
Proof. apply not_nan_spec. Qed.

Lemma nan_add_l (y : float) : nan + y = nan.
Proof. apply SF2Prim_nan. rewrite add_spec. reflexivity. Qed.

Lemma nan_add_r (y : float) : y + nan = nan.
Proof.
  apply SF2Prim_nan. rewrite add_spec. change (Prim2SF nan) with S754_nan.
  destruct (Prim2SF y); reflexivity.
Qed.

(** A float that compares equal to zero is one of the two zeros. *)
Lemma eqb_zero (v : float) : (v =? 0) = true -> v = 0 \/ v = neg_zero.
Proof.
  rewrite eqb_spec. change (Prim2SF 0) with (S754_zero false). intros H.
  destruct (Prim2SF v) as [s|s| |s m e] eqn:Hv;
    [exact (SF2Prim_zero s v Hv)|destruct s|discriminate|destruct s];
    discriminate.
Qed.

Lemma opp_nan : - nan = nan.
Proof. apply SF2Prim_nan. rewrite opp_spec. reflexivity. Qed.

Lemma abs_opp (v : float) : abs (- v) = abs v.
Proof.
  apply Prim2SF_inj. rewrite !abs_spec, opp_spec.
  destruct (Prim2SF v); reflexivity.
Qed.

Lemma eqb_opp_zero (v : float) : (- v =? 0) = (v =? 0).
Proof.
  rewrite !eqb_spec, opp_spec. change (Prim2SF 0) with (S754_zero false).
  destruct (Prim2SF v) as [s|s| |s m e]; try destruct s; reflexivity.
Qed.

Lemma SFeqb_finite_refl (s : bool) (m : positive) (e : Z) :
  SFeqb (S754_finite s m e) (S754_finite s m e) = true.
Proof.
  unfold SFeqb, SFcompare. rewrite Z.compare_refl.
  replace (Pos.compare_cont Eq m m) with Eq
    by (symmetry; apply Pos.compare_refl).
  destruct s; reflexivity.
Qed.

Lemma is_nan_opp (v : float) : is_nan (- v) = is_nan v.
Proof.
  unfold is_nan. rewrite !eqb_spec, opp_spec.
  destruct (Prim2SF v) as [s|s| |s m e]; cbn [SFopp];
    [destruct s; reflexivity|destruct s; reflexivity|reflexivity|].
  rewrite !SFeqb_finite_refl. reflexivity.
Qed.

Lemma is_infinity_opp (v : float) : is_infinity (- v) = is_infinity v.
Proof. unfold is_infinity. rewrite abs_opp. reflexivity. Qed.

(** The square of a float does not see its sign. *)
Lemma mul_opp_opp (v : float) : (- v) * (- v) = v * v.
Proof.
  apply Prim2SF_inj. rewrite !mul_spec, opp_spec.
  destruct (Prim2SF v) as [s|s| |s m e]; try destruct s; reflexivity.
Qed.

Lemma SFabs_binary_round_aux (s s' : bool) (m e : Z) (l : location) :
  SFabs (binary_round_aux prec emax s m e l)
  = SFabs (binary_round_aux prec emax s' m e l).
Proof.
  unfold binary_round_aux.
  destruct (shr_fexp prec emax m e l) as [mrs' e'].
  destruct (shr_fexp prec emax _ e' loc_Exact) as [mrs'' e''].
  destruct (shr_m mrs''); [reflexivity| |reflexivity].
  destruct (e'' <=? emax - prec)%Z; reflexivity.
Qed.

(** The magnitude of a quotient does not see the sign of the divisor. *)
Lemma abs_div_opp (u v : float) : abs (u / (- v)) = abs (u / v).
Proof.
  apply Prim2SF_inj. rewrite !abs_spec, !div_spec, opp_spec.
  destruct (Prim2SF u) as [su|su| |su mu eu];
    destruct (Prim2SF v) as [s|s| |s m e]; try reflexivity.
  unfold SF64div, SFdiv. cbn [SFopp].
  destruct (SFdiv_core_binary prec emax (Z.pos mu) eu (Z.pos m) e)
    as [[mz ez] lz].
  apply SFabs_binary_round_aux.
Qed.

(** *** Values with the sign bit clear *)

Lemma nonneg_class_zero : nonneg_class 0.
Proof. left. reflexivity. Qed.

Lemma nonneg_class_leb (y : float) : nonneg_class y -> (0 <=? y) = true.
Proof.
  unfold nonneg_class. rewrite leb_spec.
  change (Prim2SF 0) with (S754_zero false).
  intros [-> | [-> | (m & e & ->)]]; reflexivity.
Qed.

Lemma nonneg_class_number (y : float) : nonneg_class y -> number y.
Proof.
  unfold nonneg_class, number.
  intros [-> | [-> | (m & e & ->)]]; discriminate.
Qed.

Lemma square_nonneg_class (v : float) : number v -> nonneg_class (v * v).
Proof.
  unfold number, nonneg_class. intros Hv. rewrite mul_spec.
  destruct (Prim2SF v) as [s|s| |s m e]; [| |congruence|].
  - left. destruct s; reflexivity.
  - right; left. destruct s; reflexivity.
  - unfold SF64mul, SFmul.
    destruct s; apply (binary_round_aux_signed false); lia.
Qed.

Lemma binary_round_signed (s : bool) (m : positive) (e : Z) :
  signed s (binary_round prec emax s m e).
Proof.
  unfold binary_round.
  destruct (shl_align m e _) as [mz ez].
  apply binary_round_aux_signed. lia.
Qed.

Lemma add_nonneg_class (a b : float) :
  nonneg_class a -> nonneg_class b -> nonneg_class (a + b).
Proof.
  unfold nonneg_class. rewrite add_spec.
  intros [-> | [-> | (ma & ea & ->)]] [-> | [-> | (mb & eb & ->)]];
    try (left; reflexivity); try (right; left; reflexivity);
    try (right; right; eexists; eexists; reflexivity).
  unfold SF64add, SFadd. cbn [cond_Zopp Z.add binary_normalize].
  apply binary_round_signed.
Qed.

Lemma mul_finite_nonneg_class (c y : float) :
  (exists m e, Prim2SF c = S754_finite false m e) ->
  nonneg_class y -> nonneg_class (c * y).
Proof.
  unfold nonneg_class. rewrite mul_spec. intros (mc & ec & ->).
  intros [-> | [-> | (m & e & ->)]];
    [left; reflexivity|right; left; reflexivity|].
  unfold SF64mul, SFmul. apply binary_round_aux_signed. lia.
Qed.

(** Adding a zero of either sign to a number gives a float that compares
    equal to it. *)
Lemma add_zero_eqb (b w : float) :
  number b -> w = 0 \/ w = neg_zero -> (b + w =? b) = true.
Proof.
  unfold number. intros Hb Hw. rewrite eqb_spec, add_spec.
  assert (exists s, Prim2SF w = S754_zero s) as [sw ->].
  { destruct Hw as [-> | ->]; eexists; reflexivity. }
  destruct (Prim2SF b) as [s|s| |s m e]; [| |congruence|].
  - destruct s, sw; reflexivity.
  - destruct s; reflexivity.
  - cbn. apply SFeqb_finite_refl.
Qed.

(** A finite sample times the noise level [0] is a zero. *)
Lemma zero_mul_finite (z : float) :
  is_finite z = true -> 0 * z = 0 \/ 0 * z = neg_zero.
Proof.
  intros H.
  assert (exists s, Prim2SF (0 * z) = S754_zero s) as [s Hs].
  { rewrite mul_spec. change (Prim2SF 0) with (S754_zero false).
    destruct (is_finite_spec z H) as [[s ->]|(s & m & e & ->)];
      cbn; eauto. }
  exact (SF2Prim_zero s _ Hs).
Qed.

End FloatSigns.
(** * Facts about binary64 arithmetic used by the reduction kernels *)

Module FloatArith.

Import Numpy Reduction FloatClasses FloatFacts FloatSigns.
Open Scope float_scope.

Lemma eqb_zero_spec (v : float) :
  (v =? 0) = true -> exists s, Prim2SF v = S754_zero s.
Proof.
  rewrite eqb_spec. change (Prim2SF 0) with (S754_zero false). intros H.
  destruct (Prim2SF v) as [s|s| |s m e];
    [exists s; reflexivity|destruct s|discriminate|destruct s];
    discriminate.
Qed.

Lemma eqb_nonzero_spec (v : float) :
  (v =? 0) = false -> forall s, Prim2SF v <> S754_zero s.
Proof.
  rewrite eqb_spec. change (Prim2SF 0) with (S754_zero false).
  intros H s E. rewrite E in H. destruct s; discriminate.
Qed.

(** A zero times a finite float is a zero. *)
Lemma zero_term_product (p : float * float) :
  zero_term p = true -> fst p * snd p = 0 \/ fst p * snd p = neg_zero.
Proof.
  destruct p as [a b]. unfold zero_term. cbn [fst snd]. intros H.
  assert (exists s, Prim2SF (a * b) = S754_zero s) as [s Hs].
  { rewrite mul_spec. apply orb_prop in H as [H|H];
      apply andb_prop in H as [H1 H2].
    - destruct (eqb_zero_spec a H1) as [sa ->].
      destruct (is_finite_spec b H2) as [[sb ->]|(sb & mb & eb & ->)];
        cbn; eauto.
    - destruct (eqb_zero_spec b H2) as [sb ->].
      destruct (is_finite_spec a H1) as [[sa ->]|(sa & ma & ea & ->)];
        cbn; eauto. }
  exact (SF2Prim_zero s _ Hs).
Qed.

(** A float that does not compare equal to zero absorbs a zero of either
    sign, on either side. *)
Lemma add_zero_r (c w : float) :
  (c =? 0) = false -> w = 0 \/ w = neg_zero -> c + w = c.
Proof.
  intros Hc Hw. apply Prim2SF_inj. rewrite add_spec.
  pose proof (eqb_nonzero_spec c Hc) as Hn.
  assert (exists s, Prim2SF w = S754_zero s) as [sw ->].
  { destruct Hw as [-> | ->]; eexists; reflexivity. }
  destruct (Prim2SF c) as [s|s| |s m e]; [|reflexivity|reflexivity|reflexivity].
  exfalso. exact (Hn s eq_refl).
Qed.

Lemma add_zero_l (c w : float) :
  (c =? 0) = false -> w = 0 \/ w = neg_zero -> w + c = c.
Proof.
  intros Hc Hw. apply Prim2SF_inj. rewrite add_spec.
  pose proof (eqb_nonzero_spec c Hc) as Hn.
  assert (exists s, Prim2SF w = S754_zero s) as [sw ->].
  { destruct Hw as [-> | ->]; eexists; reflexivity. }
  destruct (Prim2SF c) as [s|s| |s m e]; [|reflexivity|reflexivity|reflexivity].
  exfalso. exact (Hn s eq_refl).
Qed.

(** [0.0] absorbs a zero of either sign. *)
Lemma zero_add_zero (w : float) : w = 0 \/ w = neg_zero -> 0 + w = 0.
Proof. intros [-> | ->]; reflexivity. Qed.

(** The square of a float is the square of its absolute value. *)
Lemma mul_abs_abs (v : float) : abs v * abs v = v * v.
Proof.
  apply Prim2SF_inj. rewrite !mul_spec, abs_spec.
  destruct (Prim2SF v) as [s|s| |s m e]; try destruct s; reflexivity.
Qed.

(** Two floats that compare equal have the same absolute value. *)
Lemma eqb_abs (a b : float) : (a =? b) = true -> abs a = abs b.
Proof.
  rewrite eqb_spec. intros H. apply Prim2SF_inj. rewrite !abs_spec.
  destruct (Prim2SF a) as [sa|sa| |sa ma ea], (Prim2SF b) as [sb|sb| |sb mb eb];
    try discriminate; try reflexivity;
    try (destruct sa, sb; discriminate || reflexivity).
  unfold SFeqb, SFcompare in H. cbn [SFabs].
  destruct sa, sb; try discriminate;
    destruct (Z.compare_spec ea eb) as [E|E|E]; try discriminate;
    subst eb;
    destruct (Pos.compare_cont Eq ma mb) eqn:Hm; try discriminate;
    apply Pos.compare_eq in Hm; subst mb; reflexivity.
Qed.

(** A float that compares equal to something is a number. *)
Lemma eqb_number (a b : float) : (a =? b) = true -> number b.
Proof.
  rewrite eqb_spec. unfold number. intros H E. rewrite E in H.
  destruct (Prim2SF a); discriminate.
Qed.

Lemma nonneg_class_eqb_refl (r : float) : nonneg_class r -> (r =? r) = true.
Proof.
  unfold nonneg_class. rewrite eqb_spec.
  intros [-> | [-> | (m & e & ->)]];
    [reflexivity|reflexivity|apply SFeqb_finite_refl].
Qed.

Lemma nonneg_class_not_nan (r : float) : nonneg_class r -> is_nan r = false.
Proof.
  intros H. unfold is_nan. rewrite (nonneg_class_eqb_refl r H). reflexivity.
Qed.

End FloatArith.
(** * Facts about binary64 arithmetic: orders of magnitude

    Bounds on the position of the leading bit of a rounded result, from the
    definition of rounding in [SpecFloat]. *)

Module FloatMagnitude.

Import FloatClasses FloatFacts.
Open Scope Z_scope.

Lemma digits2_pos_bounds (p : positive) :
  2 ^ (Z.pos (digits2_pos p) - 1) <= Z.pos p < 2 ^ Z.pos (digits2_pos p).
Proof.
  induction p as [p IH|p IH|]; cbn [digits2_pos]; [| |cbn; lia].
  - rewrite Pos2Z.inj_succ.
    replace (Z.succ (Z.pos (digits2_pos p)) - 1)
      with (Z.succ (Z.pos (digits2_pos p) - 1)) by lia.
    rewrite !Z.pow_succ_r by lia. lia.
  - rewrite Pos2Z.inj_succ.
    replace (Z.succ (Z.pos (digits2_pos p)) - 1)
      with (Z.succ (Z.pos (digits2_pos p) - 1)) by lia.
    rewrite !Z.pow_succ_r by lia. lia.
Qed.

Lemma Zdigits2_bounds (m : Z) :
  0 < m -> 2 ^ (Zdigits2 m - 1) <= m < 2 ^ Zdigits2 m.
Proof.
  destruct m as [|p|p]; try lia. intros _. apply digits2_pos_bounds.
Qed.

Lemma Zdigits2_nonneg (m : Z) : 0 <= Zdigits2 m.
Proof. destruct m; cbn; lia. Qed.

Lemma Zdigits2_positive (m : Z) : 0 < m -> 1 <= Zdigits2 m.
Proof. destruct m; cbn; lia. Qed.

Lemma Zdigits2_le (m j : Z) : 0 < m -> m < 2 ^ j -> Zdigits2 m <= j.
Proof.
  intros Hm Hj. destruct (Z.le_gt_cases (Zdigits2 m) j) as [H|H]; [exact H|].
  exfalso. pose proof (Zdigits2_bounds m Hm) as [Hl _].
  destruct (Z.le_gt_cases 0 j) as [H0|H0].
  - assert (2 ^ j <= 2 ^ (Zdigits2 m - 1)) by (apply Z.pow_le_mono_r; lia).
    lia.
  - rewrite Z.pow_neg_r in Hj by lia. lia.
Qed.

Lemma Zdigits2_ge (m j : Z) : 0 < m -> 2 ^ j <= m -> j + 1 <= Zdigits2 m.
Proof.
  intros Hm Hj. destruct (Z.le_gt_cases (j + 1) (Zdigits2 m)) as [H|H]; [exact H|].
  exfalso. pose proof (Zdigits2_bounds m Hm) as [_ Hu].
  pose proof (Zdigits2_nonneg m).
  assert (2 ^ Zdigits2 m <= 2 ^ j) by (apply Z.pow_le_mono_r; lia).
  lia.
Qed.

Lemma div_pow2_lt (m n j : Z) :
  0 <= n -> 0 <= j - n -> m < 2 ^ j -> m / 2 ^ n < 2 ^ (j - n).
Proof.
  intros Hn Hj Hm. apply Z.div_lt_upper_bound; [apply Z.pow_pos_nonneg; lia|].
  rewrite <- Z.pow_add_r by lia. replace (n + (j - n)) with j by lia. exact Hm.
Qed.

Lemma div_pow2_ge (m n j : Z) :
  0 <= n -> 0 <= j - n -> 2 ^ j <= m -> 2 ^ (j - n) <= m / 2 ^ n.
Proof.
  intros Hn Hj Hm. apply Z.div_le_lower_bound; [apply Z.pow_pos_nonneg; lia|].
  rewrite <- Z.pow_add_r by lia. replace (n + (j - n)) with j by lia. exact Hm.
Qed.

(** *** Shifting to the right *)

Lemma shr_1_div (mrs : shr_record) :
  0 <= shr_m mrs -> shr_m (shr_1 mrs) = shr_m mrs / 2.
Proof.
  destruct mrs as [m r s]. cbn [shr_m]. intros H.
  destruct m as [|p|p]; [reflexivity| |lia].
  destruct p as [p|p|]; cbn [shr_1 shr_m].
  - apply (Z.div_unique (Z.pos p~1) 2 (Z.pos p) 1); lia.
  - apply (Z.div_unique (Z.pos p~0) 2 (Z.pos p) 0); lia.
  - reflexivity.
Qed.

Lemma iter_pos_shr_div (n : positive) (mrs : shr_record) :
  0 <= shr_m mrs ->
  shr_m (iter_pos shr_1 n mrs) = shr_m mrs / 2 ^ Z.pos n.
Proof.
  revert mrs. induction n as [n IH|n IH|]; intros mrs H; cbn [iter_pos].
  - rewrite IH by (apply iter_pos_nonneg, shr_1_nonneg, H).
    rewrite IH by (apply shr_1_nonneg, H).
    rewrite shr_1_div by exact H.
    rewrite !Z.div_div by (try apply Z.pow_pos_nonneg; lia).
    f_equal. rewrite Pos2Z.inj_xI.
    replace (2 * Z.pos n + 1) with (1 + Z.pos n + Z.pos n) by lia.
    rewrite !Z.pow_add_r by lia. change (2 ^ 1) with 2. lia.
  - rewrite IH by (apply iter_pos_nonneg, H).
    rewrite IH by exact H.
    rewrite !Z.div_div by (try apply Z.pow_pos_nonneg; lia).
    f_equal.
    replace (Z.pos n~0) with (Z.pos n + Z.pos n) by lia.
    rewrite !Z.pow_add_r by lia. reflexivity.
  - rewrite shr_1_div by exact H. reflexivity.
Qed.

(** [shr_fexp] divides the mantissa by a power of two and adds as much to
    the exponent. *)
Lemma shr_fexp_spec (m e : Z) (l : location) :
  0 <= m ->
  shr_m (fst (shr_fexp prec emax m e l))
  = m / 2 ^ Z.max 0 (fexp prec emax (Zdigits2 m + e) - e) /\
  snd (shr_fexp prec emax m e l)
  = e + Z.max 0 (fexp prec emax (Zdigits2 m + e) - e).
Proof.
  intros H. unfold shr_fexp, shr.
  assert (shr_m (shr_record_of_loc m l) = m) as H0
    by (destruct l as [|[]]; reflexivity).
  destruct (fexp prec emax (Zdigits2 m + e) - e) as [|p|p]; cbn [fst snd].
  - rewrite H0, Z.div_1_r. split; [reflexivity|lia].
  - rewrite iter_pos_shr_div by (rewrite H0; exact H).
    rewrite H0. split; reflexivity.
  - rewrite H0. change (Z.max 0 (Z.neg p)) with 0.
    rewrite Z.div_1_r. split; [reflexivity|lia].
Qed.

Lemma round_nearest_even_bounds (m : Z) (l : location) :
  m <= round_nearest_even m l <= m + 1.
Proof.
  destruct l as [|[]]; cbn [round_nearest_even];
    try destruct (Z.even m); lia.
Qed.

Lemma fexp_eq (x : Z) : fexp prec emax x = Z.max (x - 53) (-1074).
Proof. reflexivity. Qed.

(** *** Rounding *)

(** Rounding a value below [2^k] gives a zero or a finite number below
    [2^(k+1)]. *)
Lemma binary_round_aux_below (s : bool) (m e : Z) (l : location) (k : Z) :
  0 <= m -> Zdigits2 m + e <= k -> -1074 <= k <= 971 ->
  below_pow2 (k + 1) (binary_round_aux prec emax s m e l).
Proof.
  intros Hm Hk Hr. unfold binary_round_aux.
  destruct (shr_fexp_spec m e l Hm) as [H1m H1e].
  destruct (shr_fexp prec emax m e l) as [mrs1 e1]. cbn [fst snd] in H1m, H1e.
  set (m2 := round_nearest_even (shr_m mrs1) (loc_of_shr_record mrs1)).
  pose proof (round_nearest_even_bounds (shr_m mrs1) (loc_of_shr_record mrs1))
    as Hm2. fold m2 in Hm2.
  rewrite fexp_eq in H1m, H1e.
  pose proof (Zdigits2_nonneg m) as Hd.
  set (n1 := Z.max 0 (Z.max (Zdigits2 m + e - 53) (-1074) - e)) in *.
  assert (e1 <= k) as He1 by lia.
  assert (0 <= shr_m mrs1 < 2 ^ (k - e1)) as Hm1.
  { rewrite H1m. split; [apply Z.div_pos; [exact Hm|apply Z.pow_pos_nonneg; lia]|].
    replace (k - e1) with (k - e - n1) by lia.
    apply div_pow2_lt; [lia|lia|].
    destruct (Z.eq_dec m 0) as [->|Hne]; [apply Z.pow_pos_nonneg; lia|].
    pose proof (Zdigits2_bounds m ltac:(lia)) as [_ Hu].
    assert (2 ^ Zdigits2 m <= 2 ^ (k - e)) by (apply Z.pow_le_mono_r; lia).
    lia. }
  assert (0 <= m2 < 2 ^ (k + 1 - e1)) as Hm2'.
  { replace (k + 1 - e1) with (Z.succ (k - e1)) by lia.
    rewrite Z.pow_succ_r by lia. lia. }
  destruct (shr_fexp_spec m2 e1 loc_Exact ltac:(lia)) as [H3m H3e].
  destruct (shr_fexp prec emax m2 e1 loc_Exact) as [mrs3 e3].
  cbn [fst snd] in H3m, H3e. rewrite fexp_eq in H3m, H3e.
  assert (Zdigits2 m2 <= k + 1 - e1) as Hd2.
  { destruct (Z.eq_dec m2 0) as [->|Hne]; [cbn; lia|].
    apply Zdigits2_le; lia. }
  set (n2 := Z.max 0 (Z.max (Zdigits2 m2 + e1 - 53) (-1074) - e1)) in *.
  assert (e3 <= k) as He3 by lia.
  assert (shr_m mrs3 < 2 ^ (k + 1 - e3)) as Hm3.
  { rewrite H3m. replace (k + 1 - e3) with (k + 1 - e1 - n2) by lia.
    apply div_pow2_lt; lia. }
  assert (0 <= shr_m mrs3) as Hm3'.
  { rewrite H3m. apply Z.div_pos; [lia|apply Z.pow_pos_nonneg; lia]. }
  destruct (shr_m mrs3) as [|p|p] eqn:Ep; [exact I| |lia].
  change (emax - prec) with 971.
  destruct (Z.leb_spec e3 971) as [_|?]; [|lia].
  cbn [below_pow2].
  pose proof (Zdigits2_le (Z.pos p) (k + 1 - e3) ltac:(lia) Hm3) as Hp.
  cbn [Zdigits2] in Hp. lia.
Qed.

(** Rounding a value of at least [2^(k-1)], in the normal range, gives a
    finite number of at least that size. *)
Lemma binary_round_aux_above (s : bool) (m e : Z) (l : location) :
  0 < m -> -1074 <= Zdigits2 m + e - 53 -> e <= 971 ->
  Zdigits2 m + e <= 1023 ->
  above_pow2 (Zdigits2 m + e) (binary_round_aux prec emax s m e l).
Proof.
  intros Hm Hlo He Hhi. unfold binary_round_aux.
  destruct (shr_fexp_spec m e l ltac:(lia)) as [H1m H1e].
  destruct (shr_fexp prec emax m e l) as [mrs1 e1]. cbn [fst snd] in H1m, H1e.
  set (m2 := round_nearest_even (shr_m mrs1) (loc_of_shr_record mrs1)).
  pose proof (round_nearest_even_bounds (shr_m mrs1) (loc_of_shr_record mrs1))
    as Hm2. fold m2 in Hm2.
  rewrite fexp_eq in H1m, H1e.
  pose proof (Zdigits2_positive m Hm) as Hd.
  pose proof (Zdigits2_bounds m Hm) as [Hl Hu].
  set (d := Zdigits2 m) in *.
  set (n1 := Z.max 0 (Z.max (d + e - 53) (-1074) - e)) in *.
  assert (n1 = Z.max 0 (d - 53)) as En1 by lia.
  assert (2 ^ (d - 1 - n1) <= shr_m mrs1 < 2 ^ (d - n1)) as Hm1.
  { rewrite H1m. split; [apply div_pow2_ge|apply div_pow2_lt]; lia. }
  assert (0 < 2 ^ (d - 1 - n1)) as Hp1 by (apply Z.pow_pos_nonneg; lia).
  assert (m2 < 2 ^ (d - n1 + 1)) as Hm2u.
  { rewrite Z.pow_add_r by lia. change (2 ^ 1) with 2. lia. }
  assert (0 < m2) as Hm2p by lia.
  pose proof (Zdigits2_ge m2 (d - 1 - n1) Hm2p ltac:(lia)) as Hd2l.
  pose proof (Zdigits2_le m2 (d - n1 + 1) Hm2p Hm2u) as Hd2u.
  pose proof (Zdigits2_bounds m2 Hm2p) as [Hl2 Hu2].
  destruct (shr_fexp_spec m2 e1 loc_Exact ltac:(lia)) as [H3m H3e].
  destruct (shr_fexp prec emax m2 e1 loc_Exact) as [mrs3 e3].
  cbn [fst snd] in H3m, H3e. rewrite fexp_eq in H3m, H3e.
  set (d2 := Zdigits2 m2) in *.
  set (n2 := Z.max 0 (Z.max (d2 + e1 - 53) (-1074) - e1)) in *.
  assert (n2 = Z.max 0 (d2 - 53)) as En2 by lia.
  assert (2 ^ (d2 - 1 - n2) <= shr_m mrs3) as Hm3.
  { rewrite H3m. apply div_pow2_ge; lia. }
  assert (0 < 2 ^ (d2 - 1 - n2)) as Hp3 by (apply Z.pow_pos_nonneg; lia).
  destruct (shr_m mrs3) as [|p|p] eqn:Ep; [lia| |lia].
  change (emax - prec) with 971.
  destruct (Z.leb_spec e3 971) as [_|?]; [|lia].
  cbn [above_pow2].
  pose proof (Zdigits2_ge (Z.pos p) (d2 - 1 - n2) ltac:(lia) Hm3) as Hp.
  cbn [Zdigits2] in Hp. lia.
Qed.

(** Rounding a mantissa that is not zero, with an exponent not below the
    least one, does not give a zero. *)
Lemma binary_round_aux_nonzero (s s' : bool) (m e : Z) (l : location) :
  0 < m -> -1074 <= e ->
  binary_round_aux prec emax s m e l <> S754_zero s'.
Proof.
  intros Hm He. unfold binary_round_aux.
  destruct (shr_fexp_spec m e l ltac:(lia)) as [H1m H1e].
  destruct (shr_fexp prec emax m e l) as [mrs1 e1]. cbn [fst snd] in H1m, H1e.
  set (m2 := round_nearest_even (shr_m mrs1) (loc_of_shr_record mrs1)).
  pose proof (round_nearest_even_bounds (shr_m mrs1) (loc_of_shr_record mrs1))
    as Hm2. fold m2 in Hm2.
  rewrite fexp_eq in H1m, H1e.
  pose proof (Zdigits2_positive m Hm) as Hd.
  pose proof (Zdigits2_bounds m Hm) as [Hl Hu].
  set (d := Zdigits2 m) in *.
  set (n1 := Z.max 0 (Z.max (d + e - 53) (-1074) - e)) in *.
  assert (2 ^ (d - 1 - n1) <= shr_m mrs1) as Hm1.
  { rewrite H1m. apply div_pow2_ge; lia. }
  assert (0 < 2 ^ (d - 1 - n1)) as Hp1 by (apply Z.pow_pos_nonneg; lia).
  assert (0 < m2) as Hm2p by lia.
  pose proof (Zdigits2_positive m2 Hm2p) as Hd2.
  pose proof (Zdigits2_bounds m2 Hm2p) as [Hl2 Hu2].
  destruct (shr_fexp_spec m2 e1 loc_Exact ltac:(lia)) as [H3m H3e].
  destruct (shr_fexp prec emax m2 e1 loc_Exact) as [mrs3 e3].
  cbn [fst snd] in H3m, H3e. rewrite fexp_eq in H3m, H3e.
  set (d2 := Zdigits2 m2) in *.
  set (n2 := Z.max 0 (Z.max (d2 + e1 - 53) (-1074) - e1)) in *.
  assert (2 ^ (d2 - 1 - n2) <= shr_m mrs3) as Hm3.
  { rewrite H3m. apply div_pow2_ge; lia. }
  assert (0 < 2 ^ (d2 - 1 - n2)) as Hp3 by (apply Z.pow_pos_nonneg; lia).
  destruct (shr_m mrs3) as [|p|p] eqn:Ep; [lia| |lia].
  destruct (e3 <=? emax - prec); discriminate.
Qed.

(** *** Conversion of an integer *)

Lemma iter_xO_pow2 (d m : positive) :
  Z.pos (Pos.iter xO m d) = Z.pos m * 2 ^ Z.pos d.
Proof.
  induction d as [|d IH] using Pos.peano_ind.
  - cbn [Pos.iter]. change (2 ^ 1) with 2. lia.
  - rewrite Pos.iter_succ, Pos2Z.inj_succ, Z.pow_succ_r by lia.
    set (q := Pos.iter xO m d) in *.
    replace (Z.pos q~0) with (2 * Z.pos q) by lia. rewrite IH. lia.
Qed.

Lemma Zdigits2_mul_pow2 (m t : Z) :
  0 < m -> 0 <= t -> Zdigits2 (m * 2 ^ t) = Zdigits2 m + t.
Proof.
  intros Hm Ht. pose proof (Zdigits2_bounds m Hm) as [Hl Hu].
  pose proof (Zdigits2_positive m Hm) as Hd.
  assert (0 < 2 ^ t) as Hp by (apply Z.pow_pos_nonneg; lia).
  assert (0 < m * 2 ^ t) as Hmt by lia.
  apply Z.le_antisymm.
  - apply Zdigits2_le; [exact Hmt|].
    rewrite Z.pow_add_r by lia. apply Z.mul_lt_mono_pos_r; assumption.
  - replace (Zdigits2 m + t) with (Zdigits2 m - 1 + t + 1) by lia.
    apply Zdigits2_ge; [exact Hmt|].
    rewrite Z.pow_add_r by lia. apply Z.mul_le_mono_nonneg_r; lia.
Qed.

Lemma shl_align_spec (mx : positive) (ex ex' : Z) :
  let '(mz, ez) := shl_align mx ex ex' in
  Zdigits2 (Z.pos mz) + ez = Zdigits2 (Z.pos mx) + ex /\ ez <= ex.
Proof.
  unfold shl_align. destruct (ex' - ex) as [|d|d] eqn:E; try (split; lia).
  rewrite iter_xO_pow2, Zdigits2_mul_pow2 by lia. split; lia.
Qed.

Lemma shl_align_exponent (mx : positive) (ex ex' : Z) :
  snd (shl_align mx ex ex') = ex \/ snd (shl_align mx ex ex') = ex'.
Proof.
  unfold shl_align. destruct (ex' - ex); cbn [snd]; [left|left|right];
    reflexivity.
Qed.

Lemma binary_round_below (s : bool) (mx : positive) (ex k : Z) :
  Zdigits2 (Z.pos mx) + ex <= k -> -1074 <= k <= 971 ->
  below_pow2 (k + 1) (binary_round prec emax s mx ex).
Proof.
  intros Hk Hr. unfold binary_round.
  pose proof (shl_align_spec mx ex
                (fexp prec emax (Z.pos (digits2_pos mx) + ex))) as H.
  destruct (shl_align mx ex _) as [mz ez]. destruct H as [H _].
  apply binary_round_aux_below; lia.
Qed.

Lemma binary_round_above (s : bool) (mx : positive) (ex : Z) :
  -1074 <= Zdigits2 (Z.pos mx) + ex - 53 -> ex <= 971 ->
  Zdigits2 (Z.pos mx) + ex <= 1023 ->
  above_pow2 (Zdigits2 (Z.pos mx) + ex) (binary_round prec emax s mx ex).
Proof.
  intros Hlo He Hhi. unfold binary_round.
  pose proof (shl_align_spec mx ex
                (fexp prec emax (Z.pos (digits2_pos mx) + ex))) as H.
  destruct (shl_align mx ex _) as [mz ez]. destruct H as [H H'].
  rewrite <- H. apply binary_round_aux_above; lia.
Qed.

Lemma binary_round_nonzero (s s' : bool) (mx : positive) (ex : Z) :
  -1074 <= ex -> binary_round prec emax s mx ex <> S754_zero s'.
Proof.
  intros He. unfold binary_round.
  pose proof (shl_align_exponent mx ex
                (fexp prec emax (Z.pos (digits2_pos mx) + ex))) as H.
  rewrite fexp_eq in *.
  destruct (shl_align mx ex _) as [mz ez]. cbn [snd] in H.
  apply binary_round_aux_nonzero; lia.
Qed.

Lemma binary_normalize_not_neg_zero (m e : Z) :
  -1074 <= e -> binary_normalize prec emax m e false <> S754_zero true.
Proof.
  intros He. destruct m as [|p|p]; cbn [binary_normalize];
    [discriminate|apply binary_round_nonzero, He|apply binary_round_nonzero, He].
Qed.

(** *** Rounding gives a float of the format *)

Lemma Zdigits2_div_pow2 (m n : Z) :
  0 < m -> 0 <= n < Zdigits2 m -> Zdigits2 (m / 2 ^ n) = Zdigits2 m - n.
Proof.
  intros Hm Hn. pose proof (Zdigits2_bounds m Hm) as [Hl Hu].
  assert (2 ^ (Zdigits2 m - 1 - n) <= m / 2 ^ n) as H1
    by (apply div_pow2_ge; lia).
  assert (m / 2 ^ n < 2 ^ (Zdigits2 m - n)) as H2
    by (apply div_pow2_lt; lia).
  assert (0 < 2 ^ (Zdigits2 m - 1 - n)) by (apply Z.pow_pos_nonneg; lia).
  apply Z.le_antisymm.
  - apply Zdigits2_le; lia.
  - replace (Zdigits2 m - n) with (Zdigits2 m - 1 - n + 1) by lia.
    apply Zdigits2_ge; lia.
Qed.

Lemma div_pow2_zero (m n : Z) :
  0 < m -> Zdigits2 m <= n -> m / 2 ^ n = 0.
Proof.
  intros Hm Hn. pose proof (Zdigits2_bounds m Hm) as [_ Hu].
  pose proof (Zdigits2_nonneg m).
  apply Z.div_small. split; [lia|].
  assert (2 ^ Zdigits2 m <= 2 ^ n) by (apply Z.pow_le_mono_r; lia). lia.
Qed.

(** Rounding a mantissa whose exponent is not above the one of the format
    gives a canonical mantissa. *)
Lemma binary_round_aux_valid (s : bool) (m e : Z) (l : location) :
  0 < m -> e <= fexp prec emax (Zdigits2 m + e) ->
  valid_binary (binary_round_aux prec emax s m e l) = true.
Proof.
  intros Hm He. unfold binary_round_aux.
  destruct (shr_fexp_spec m e l ltac:(lia)) as [H1m H1e].
  destruct (shr_fexp prec emax m e l) as [mrs1 e1]. cbn [fst snd] in H1m, H1e.
  set (m2 := round_nearest_even (shr_m mrs1) (loc_of_shr_record mrs1)).
  pose proof (round_nearest_even_bounds (shr_m mrs1) (loc_of_shr_record mrs1))
    as Hm2. fold m2 in Hm2.
  rewrite fexp_eq in He, H1m, H1e.
  pose proof (Zdigits2_positive m Hm) as Hd.
  set (d := Zdigits2 m) in *.
  set (m1 := shr_m mrs1) in *.
  assert (e1 = Z.max (d + e - 53) (-1074)) as Ee1 by lia.
  assert (m1 = m / 2 ^ (e1 - e)) as Em1
    by (rewrite H1m; f_equal; f_equal; lia).
  clear H1m H1e.
  assert (0 <= m1) as Hm1
    by (rewrite Em1; apply Z.div_pos; [lia|apply Z.pow_pos_nonneg; lia]).
  destruct (shr_fexp_spec m2 e1 loc_Exact ltac:(lia)) as [H3m H3e].
  destruct (shr_fexp prec emax m2 e1 loc_Exact) as [mrs3 e3].
  cbn [fst snd] in H3m, H3e. rewrite fexp_eq in H3m, H3e.
  assert (forall p, m2 / 2 ^ (e3 - e1) = Z.pos p ->
                    Z.max (Zdigits2 (Z.pos p) + e3 - 53) (-1074) = e3) as Hcan.
  { intros p Hp.
    destruct (Z.le_gt_cases d (e1 - e)) as [Hs|Hs].
    - (* everything was shifted out: the exponent is the least one *)
      assert (m1 = 0) as Z1 by (rewrite Em1; apply div_pow2_zero; lia).
      assert (m2 = 0 \/ m2 = 1) as [Z2|Z2] by lia; rewrite Z2 in *.
      + rewrite Z.div_0_l in Hp by (apply Z.pow_nonzero; lia). lia.
      + cbn [Zdigits2 digits2_pos] in H3e.
        replace (e3 - e1) with 0 in Hp by lia.
        rewrite Z.div_1_r in Hp. injection Hp as <-.
        cbn [Zdigits2 digits2_pos]. lia.
    - (* the mantissa [m1] is canonical *)
      assert (Zdigits2 m1 = d - (e1 - e)) as Ed1
        by (rewrite Em1; apply Zdigits2_div_pow2; lia).
      assert (0 < m1) as Hp1.
      { destruct (Z.eq_dec m1 0) as [E|E]; [|lia].
        rewrite E in Ed1. cbn [Zdigits2] in Ed1. lia. }
      pose proof (Zdigits2_bounds m1 Hp1) as [Hl1 Hu1].
      set (d1 := Zdigits2 m1) in *.
      assert (0 < m2) as Hp2 by lia.
      pose proof (Zdigits2_bounds m2 Hp2) as [Hl2 Hu2].
      assert (d1 <= Zdigits2 m2) as Hd2l.
      { replace d1 with (d1 - 1 + 1) by lia. apply Zdigits2_ge; lia. }
      assert (Zdigits2 m2 <= d1 + 1) as Hd2u.
      { apply Zdigits2_le; [lia|]. rewrite Z.pow_add_r by lia.
        change (2 ^ 1) with 2. lia. }
      set (d2 := Zdigits2 m2) in *.
      destruct (Z.eq_dec (e3 - e1) 0) as [E0|E0].
      + rewrite E0, Z.div_1_r in Hp. rewrite <- Hp. fold d2. lia.
      + assert (e3 - e1 = 1 /\ d2 = 54 /\ d1 = 53) as (E1 & E2 & E3) by lia.
        rewrite E1 in Hp. change (2 ^ 1) with 2 in Hp.
        assert (Zdigits2 (m2 / 2 ^ 1) = d2 - 1) as Ed3
          by (apply Zdigits2_div_pow2; lia).
        change (2 ^ 1) with 2 in Ed3. rewrite Hp in Ed3. lia. }
  assert (shr_m mrs3 = m2 / 2 ^ (e3 - e1)) as Em3
    by (rewrite H3m; f_equal; f_equal; lia).
  destruct (shr_m mrs3) as [|p|p] eqn:Ep; [reflexivity| |reflexivity].
  destruct (e3 <=? emax - prec) eqn:Eb; [|reflexivity].
  cbn [valid_binary]. unfold bounded, canonical_mantissa.
  rewrite Eb, andb_true_r, fexp_eq. apply Z.eqb_eq.
  apply (Hcan p). symmetry. exact Em3.
Qed.

Lemma binary_round_valid (s : bool) (mx : positive) (ex : Z) :
  valid_binary (binary_round prec emax s mx ex) = true.
Proof.
  unfold binary_round.
  pose proof (shl_align_spec mx ex
                (fexp prec emax (Z.pos (digits2_pos mx) + ex))) as H.
  pose proof (shl_align_exponent mx ex
                (fexp prec emax (Z.pos (digits2_pos mx) + ex))) as H'.
  assert (fexp prec emax (Z.pos (digits2_pos mx) + ex) < ex ->
          snd (shl_align mx ex (fexp prec emax (Z.pos (digits2_pos mx) + ex)))
          = fexp prec emax (Z.pos (digits2_pos mx) + ex)) as H''.
  { intros Hlt. unfold shl_align.
    destruct (fexp prec emax (Z.pos (digits2_pos mx) + ex) - ex) eqn:E;
      [lia|lia|reflexivity]. }
  rewrite fexp_eq in *.
  destruct (shl_align mx ex _) as [mz ez]. cbn [snd] in H', H''.
  destruct H as [H _]. cbn [Zdigits2] in H.
  apply binary_round_aux_valid; [lia|].
  rewrite fexp_eq. cbn [Zdigits2]. lia.
Qed.

Lemma binary_normalize_valid (m e : Z) (sz : bool) :
  valid_binary (binary_normalize prec emax m e sz) = true.
Proof.
  destruct m as [|p|p]; cbn [binary_normalize];
    [reflexivity|apply binary_round_valid|apply binary_round_valid].
Qed.

(** *** The primitive operations *)

(** The exponent of a finite float is not below the least one. *)
Lemma finite_exponent (x : float) (s : bool) (m : positive) (e : Z) :
  Prim2SF x = S754_finite s m e -> -1074 <= e.
Proof.
  intros H. pose proof (Prim2SF_valid x) as Hv. rewrite H in Hv.
  cbn [valid_binary] in Hv. unfold bounded in Hv.
  apply andb_prop in Hv as [Hc _]. unfold canonical_mantissa in Hc.
  rewrite fexp_eq in Hc. apply Z.eqb_eq in Hc. lia.
Qed.

(** A difference whose first term has the sign bit clear, or is [nan], is
    not the negative zero. *)
Lemma sub_not_neg_zero (a b : float) :
  Prim2SF a = S754_nan \/ nonneg_class a ->
  (a - b)%float <> neg_zero.
Proof.
  intros Ha E. apply (f_equal Prim2SF) in E. rewrite sub_spec in E.
  change (Prim2SF neg_zero) with (S754_zero true) in E.
  pose proof (finite_exponent a) as Hea. pose proof (finite_exponent b) as Heb.
  unfold nonneg_class, signed in Ha.
  destruct Ha as [Ha|[Ha|[Ha|(ma & ea & Ha)]]]; rewrite Ha in *;
    destruct (Prim2SF b) as [sb|sb| |sb mb eb];
    cbn in E; try discriminate; try (destruct sb; discriminate).
  specialize (Hea _ _ _ eq_refl). specialize (Heb _ _ _ eq_refl).
  revert E. apply binary_normalize_not_neg_zero. lia.
Qed.


Lemma below_pow2_mono (k k' : Z) (f : spec_float) :
  k <= k' -> below_pow2 k f -> below_pow2 k' f.
Proof. intros Hk. destruct f; cbn [below_pow2]; try tauto. lia. Qed.

Lemma Zdigits2_mul (a b : positive) :
  Zdigits2 (Z.pos (a * b)) <= Zdigits2 (Z.pos a) + Zdigits2 (Z.pos b).
Proof.
  pose proof (Zdigits2_bounds (Z.pos a) ltac:(lia)) as [_ Ha].
  pose proof (Zdigits2_bounds (Z.pos b) ltac:(lia)) as [_ Hb].
  pose proof (Zdigits2_nonneg (Z.pos a)). pose proof (Zdigits2_nonneg (Z.pos b)).
  apply Zdigits2_le; [lia|].
  rewrite Pos2Z.inj_mul, Z.pow_add_r by lia.
  apply Z.mul_lt_mono_nonneg; lia.
Qed.

Lemma mul_below (x y : float) (ka kb : Z) :
  below_pow2 ka (Prim2SF x) -> below_pow2 kb (Prim2SF y) ->
  -1074 <= ka + kb <= 971 ->
  below_pow2 (ka + kb + 1) (Prim2SF (x * y)%float).
Proof.
  rewrite mul_spec.
  destruct (Prim2SF x) as [sx|sx| |sx mx ex],
           (Prim2SF y) as [sy|sy| |sy my ey];
    cbn [below_pow2]; try tauto; intros Hx Hy Hr; try exact I.
  unfold SF64mul, SFmul. pose proof (Zdigits2_mul mx my) as Hd.
  cbn [Zdigits2] in Hd.
  apply binary_round_aux_below; [lia|cbn [Zdigits2]; lia|lia].
Qed.

Lemma div_core_below (mx my : positive) (ex ey : Z) :
  let '(mz, ez, lz) :=
    SFdiv_core_binary prec emax (Z.pos mx) ex (Z.pos my) ey in
  0 <= mz /\
  Zdigits2 mz + ez
  <= Z.max (Zdigits2 (Z.pos mx) + ex - (Zdigits2 (Z.pos my) + ey) + 1) (-1074).
Proof.
  unfold SFdiv_core_binary. rewrite fexp_eq.
  set (d1 := Zdigits2 (Z.pos mx)). set (d2 := Zdigits2 (Z.pos my)).
  set (e' := Z.min (Z.max (d1 + ex - (d2 + ey) - 53) (-1074)) (ex - ey)).
  set (sh := ex - ey - e').
  assert (0 <= sh) as Hsh by (unfold sh, e'; lia).
  set (m' := match sh with 0 => Z.pos mx | Z.pos _ => Z.shiftl (Z.pos mx) sh
                          | Z.neg _ => 0 end).
  assert (m' = Z.pos mx * 2 ^ sh) as Em'.
  { unfold m'. destruct sh as [|p|p] eqn:E; [cbn; lia| |lia].
    apply Z.shiftl_mul_pow2. lia. }
  assert (0 < 2 ^ sh) as Hp by (apply Z.pow_pos_nonneg; lia).
  pose proof (Z.div_pos m' (Z.pos my) ltac:(lia) eq_refl) as Hq.
  pose proof (Z.mul_div_le m' (Z.pos my) eq_refl) as Hqm.
  unfold Z.div in Hq, Hqm.
  destruct (Z.div_eucl m' (Z.pos my)) as [q r].
  split; [exact Hq|].
  pose proof (Zdigits2_bounds (Z.pos mx) eq_refl) as [_ Hu1].
  pose proof (Zdigits2_bounds (Z.pos my) eq_refl) as [Hl2 _].
  pose proof (Zdigits2_positive (Z.pos mx) eq_refl) as Hd1.
  pose proof (Zdigits2_positive (Z.pos my) eq_refl) as Hd2.
  fold d1 in Hu1, Hd1. fold d2 in Hl2, Hd2.
  destruct (Z.eq_dec q 0) as [->|Hq0]; [cbn [Zdigits2]; unfold e'; lia|].
  assert (0 < 2 ^ (d2 - 1)) as Hp2 by (apply Z.pow_pos_nonneg; lia).
  assert (q * 2 ^ (d2 - 1) < 2 ^ (d1 + sh)) as Hb.
  { rewrite Z.pow_add_r by lia.
    apply Z.le_lt_trans with (Z.pos my * q); [nia|].
    apply Z.le_lt_trans with m'; [exact Hqm|].
    rewrite Em'. apply Z.mul_lt_mono_pos_r; assumption. }
  assert (q < 2 ^ (d1 + sh - d2 + 1)) as Hq'.
  { destruct (Z.le_gt_cases (d1 + sh) (d2 - 1)) as [Hle|Hgt].
    - assert (2 ^ (d1 + sh) <= 2 ^ (d2 - 1)) by (apply Z.pow_le_mono_r; lia).
      nia.
    - replace (d1 + sh) with ((d1 + sh - d2 + 1) + (d2 - 1)) in Hb by lia.
      rewrite Z.pow_add_r in Hb by lia.
      apply Z.mul_lt_mono_pos_r in Hb; assumption. }
  pose proof (Zdigits2_le q _ ltac:(lia) Hq') as Hdq.
  unfold sh in Hdq. lia.
Qed.

Lemma div_below (x y : float) (ka kb : Z) :
  below_pow2 ka (Prim2SF x) -> above_pow2 kb (Prim2SF y) ->
  -1074 <= ka - kb + 1 <= 971 ->
  below_pow2 (ka - kb + 2) (Prim2SF (x / y)%float).
Proof.
  rewrite div_spec.
  destruct (Prim2SF x) as [sx|sx| |sx mx ex],
           (Prim2SF y) as [sy|sy| |sy my ey];
    cbn [below_pow2 above_pow2]; try tauto; intros Hx Hy Hr; try exact I.
  unfold SF64div, SFdiv. pose proof (div_core_below mx my ex ey) as H.
  destruct (SFdiv_core_binary prec emax (Z.pos mx) ex (Z.pos my) ey)
    as [[mz ez] lz].
  destruct H as [H0 H1]. cbn [Zdigits2] in H1.
  replace (ka - kb + 2) with (ka - kb + 1 + 1) by lia.
  apply binary_round_aux_below; lia.
Qed.

Lemma add_zero_below (x : float) (k : Z) :
  below_pow2 k (Prim2SF x) -> below_pow2 k (Prim2SF (x + 0)%float).
Proof.
  rewrite add_spec. change (Prim2SF 0%float) with (S754_zero false).
  destruct (Prim2SF x) as [s|s| |s m e]; cbn [below_pow2]; try tauto.
  intros _. destruct s; exact I.
Qed.

(** *** Conversion of an array size *)

Lemma float_of_int_spec (k : Z) :
  0 <= k < 2 ^ 63 ->
  Prim2SF (Numpy.float_of_int k) = binary_normalize prec emax k 0 false.
Proof.
  intros Hk. unfold Numpy.float_of_int.
  pose proof (of_uint63_spec (Uint63Axioms.of_Z k)) as H.
  rewrite Uint63.of_Z_spec, Z.mod_small in H by exact Hk.
  rewrite <- H, SF2Prim_Prim2SF. reflexivity.
Qed.

Lemma float_of_int_below (k D : Z) :
  0 <= k < 2 ^ D -> 0 <= D <= 63 ->
  below_pow2 (D + 1) (Prim2SF (Numpy.float_of_int k)).
Proof.
  intros Hk HD.
  assert (2 ^ D <= 2 ^ 63) as Hp by (apply Z.pow_le_mono_r; lia).
  rewrite float_of_int_spec by lia.
  destruct k as [|p|p]; [exact I| |lia].
  cbn [binary_normalize]. apply binary_round_below; [|lia].
  rewrite Z.add_0_r. apply Zdigits2_le; lia.
Qed.

Lemma float_of_int_above (k : Z) :
  0 < k < 2 ^ 63 ->
  above_pow2 (Zdigits2 k) (Prim2SF (Numpy.float_of_int k)).
Proof.
  intros Hk. rewrite float_of_int_spec by lia.
  destruct k as [|p|p]; [lia| |lia].
  cbn [binary_normalize].
  pose proof (Zdigits2_positive (Z.pos p) eq_refl) as Hd.
  pose proof (Zdigits2_le (Z.pos p) 63 eq_refl ltac:(lia)) as Hu.
  rewrite <- (Z.add_0_r (Zdigits2 (Z.pos p))).
  apply binary_round_above; lia.
Qed.

(** A float below [2^7] is at most [308]. *)
Lemma below_leb_308 (y : float) :
  below_pow2 7 (Prim2SF y) -> (y <=? 308)%float = true.
Proof.
  rewrite leb_spec. pose proof (Prim2SF_valid y) as Hv.
  assert (Prim2SF 308%float = S754_finite false 5418393301680128 (-44)) as ->
    by reflexivity.
  destruct (Prim2SF y) as [s|s| |s m e]; cbn [below_pow2];
    [reflexivity|contradiction|contradiction|].
  intros H. cbn [valid_binary] in Hv. unfold bounded in Hv.
  apply andb_prop in Hv as [Hc _]. unfold canonical_mantissa in Hc.
  rewrite fexp_eq in Hc. apply Z.eqb_eq in Hc.
  unfold SFleb, SFcompare. destruct s; [reflexivity|].
  destruct (Z.compare_spec e (-44)) as [E|E|E]; [lia|reflexivity|lia].
Qed.

End FloatMagnitude.
(** * Facts about the discrete cores *)

Module DiscreteFacts.
Import Discrete.

Section Cores.

Context {A : Type}.
Variable int_round : A -> Z.

Lemma len_cons (w : A) (t : list A) : len (w :: t) = (len t + 1)%Z.
Proof. unfold len. cbn [length]. lia. Qed.

Lemma ones_not_ones (x : list A) : (ones int_round x + not_ones int_round x = len x)%Z.
Proof.
  induction x as [|w t IH]; [reflexivity|].
  rewrite len_cons. cbn [ones not_ones].
  destruct (int_round w =? 1)%Z; lia.
Qed.

Lemma ones_bounds (x : list A) : (0 <= ones int_round x <= len x)%Z.
Proof.
  induction x as [|w t IH]; [cbn; lia|].
  rewrite len_cons. cbn [ones].
  destruct (int_round w =? 1)%Z; lia.
Qed.

Lemma ones_filter (x : list A) :
  ones int_round x
  = Z.of_nat (length (filter (fun w => int_round w =? 1)%Z x)).
Proof.
  induction x as [|w t IH]; [reflexivity|].
  cbn [ones filter]. destruct (int_round w =? 1)%Z; cbn [length]; lia.
Qed.

(** [_leadingones] is the length minus the number of initial ones. *)
Lemma leadingones_loop_law (n i : Z) (x : list A) :
  (i + len x = n)%Z ->
  leadingones_loop int_round n i x = (len x - leading int_round x)%Z.
Proof.
  revert i. induction x as [|w t IH]; intros i Hn; [reflexivity|].
  rewrite len_cons in *. cbn [leadingones_loop leading].
  destruct (int_round w =? 1)%Z; cbn [negb].
  - rewrite IH by lia. lia.
  - lia.
Qed.

Lemma leadingones_law (x : list A) :
  _leadingones int_round x = (len x - leading int_round x)%Z.
Proof. apply leadingones_loop_law. lia. Qed.

End Cores.

End DiscreteFacts.

(** * Facts about the registry *)

Module RegistryFacts.
Import Registry.

Lemma mem_names (n : string) (r : t) :
  mem n r = existsb (String.eqb n) (names r).
Proof.
  unfold mem, names. induction r as [|e r IH]; [reflexivity|].
  cbn. rewrite IH, (String.eqb_sym (name e) n). reflexivity.
Qed.

Lemma mem_false_not_In (n : string) (r : t) :
  mem n r = false -> ~ In n (names r).
Proof.
  rewrite mem_names. intros Hm Hin.
  assert (existsb (String.eqb n) (names r) = true) as Ht.
  { apply existsb_exists. exists n. split; [exact Hin|apply String.eqb_refl]. }
  congruence.
Qed.

Lemma mem_false_get (n : string) (r : t) :
  mem n r = false -> get r n = Raise NotFound.
Proof.
  unfold mem, get. induction r as [|e r IH]; [reflexivity|].
  cbn. destruct (String.eqb (name e) n); [discriminate|exact IH].
Qed.

End RegistryFacts.

(** * Facts about the fused multiply-add *)

Module FusedFacts.

Import Numpy Reduction FloatClasses FloatFacts FloatSigns FloatArith.
Import FloatMagnitude.
Open Scope float_scope.

(** The fused multiply-add of three floats is a float of the format. *)
Lemma SFfma_valid (u v r : float) :
  valid_binary (SFfma (Prim2SF u) (Prim2SF v) (Prim2SF r)) = true.
Proof.
  pose proof (Prim2SF_valid r) as Hr. pose proof (Prim2SF_valid (u * v)) as Hp.
  rewrite mul_spec in Hp.
  destruct (Prim2SF u) as [sx|sx| |sx mx ex],
           (Prim2SF v) as [sy|sy| |sy my ey];
    cbn [SFfma]; try reflexivity;
    try (destruct (Prim2SF r) as [sz|sz| |sz mz ez];
         cbn [SFadd]; try reflexivity; try exact Hr;
         destruct (xorb sx sy), sz; reflexivity).
  destruct (Prim2SF r) as [sz|sz| |sz mz ez]; try reflexivity.
  - exact Hp.
  - apply binary_normalize_valid.
Qed.

Lemma fma_spec (u v r : float) :
  Prim2SF (fma u v r) = SFfma (Prim2SF u) (Prim2SF v) (Prim2SF r).
Proof. apply Prim2SF_SF2Prim, SFfma_valid. Qed.

(** Fusing a product that is an exact zero is adding that zero. *)
Lemma fma_zero_pair (u v r : float) :
  zero_term (u, v) = true -> fma u v r = u * v + r.
Proof.
  unfold zero_term. cbn [fst snd]. intros H.
  unfold fma. rewrite <- (SF2Prim_Prim2SF (u * v + r)), add_spec, mul_spec.
  f_equal. apply orb_prop in H as [H|H]; apply andb_prop in H as [H1 H2].
  - destruct (eqb_zero_spec u H1) as [sx ->].
    destruct (is_finite_spec v H2) as [[sy ->]|(sy & my & ey & ->)];
      reflexivity.
  - destruct (eqb_zero_spec v H2) as [sy ->].
    destruct (is_finite_spec u H1) as [[sx ->]|(sx & mx & ex & ->)];
      reflexivity.
Qed.

(** A product that is [nan] makes the fused result [nan]. *)
Lemma fma_nan_product (u v r : float) :
  is_nan (u * v) = true -> fma u v r = nan.
Proof.
  intros H. apply is_nan_true in H. apply (f_equal Prim2SF) in H.
  rewrite mul_spec in H. change (Prim2SF nan) with S754_nan in H.
  unfold fma.
  assert (SFfma (Prim2SF u) (Prim2SF v) (Prim2SF r) = S754_nan) as ->;
    [|reflexivity].
  destruct (Prim2SF u) as [sx|sx| |sx mx ex],
           (Prim2SF v) as [sy|sy| |sy my ey];
    cbn in H; try discriminate; try reflexivity.
  exfalso.
  destruct (binary_round_aux_signed (xorb sx sy) (Z.pos (mx * my)) (ex + ey)
              loc_Exact ltac:(lia)) as [E|[E|(m' & e' & E)]];
    unfold SF64mul, SFmul in H; rewrite E in H; discriminate.
Qed.

(** A partial result that is [nan] makes the fused result [nan]. *)
Lemma fma_nan_acc (u v : float) : fma u v nan = nan.
Proof.
  unfold fma. change (Prim2SF nan) with S754_nan.
  destruct (Prim2SF u) as [sx|sx| |sx mx ex],
           (Prim2SF v) as [sy|sy| |sy my ey]; reflexivity.
Qed.

(** Fusing a product that is not a zero with a zero is the product. *)
Lemma fma_zero_acc (u v r : float) :
  r = 0 \/ r = neg_zero -> (u * v =? 0) = false -> fma u v r = u * v.
Proof.
  intros Hr Huv. pose proof (eqb_nonzero_spec (u * v) Huv) as Hn.
  rewrite mul_spec in Hn.
  unfold fma. rewrite <- (SF2Prim_Prim2SF (u * v)), mul_spec. f_equal.
  assert (exists sz, Prim2SF r = S754_zero sz) as [sz ->]
    by (destruct Hr as [-> | ->]; eexists; reflexivity).
  destruct (Prim2SF u) as [sx|sx| |sx mx ex],
           (Prim2SF v) as [sy|sy| |sy my ey];
    try reflexivity;
    try (exfalso; exact (Hn _ eq_refl)).
Qed.

Lemma signed_unique (s s' : bool) (f : spec_float) :
  signed s f -> signed s' f -> s = s'.
Proof.
  intros [-> | [-> | (m & e & ->)]] [E|[E|(m' & e' & E)]];
    congruence.
Qed.

Lemma signed_false_not_nan : ~ signed false S754_nan.
Proof. intros [E|[E|(m & e & E)]]; discriminate. Qed.

(** Fusing a product with the sign bit clear with a partial result with
    the sign bit clear gives such a value. *)
Lemma fma_nonneg (u v r : float) :
  nonneg_class (u * v) -> nonneg_class r -> nonneg_class (fma u v r).
Proof.
  unfold nonneg_class. rewrite fma_spec, mul_spec. intros Hp Hz.
  destruct (Prim2SF u) as [sx|sx| |sx mx ex],
           (Prim2SF v) as [sy|sy| |sy my ey];
    cbn [SF64mul SFmul] in Hp; unfold SF64mul, SFmul in Hp; cbn [SFfma];
    try (exfalso; exact (signed_false_not_nan Hp));
    try (assert (xorb sx sy = false) as ->
           by (symmetry; apply (signed_unique false _ _ Hp);
               (left; reflexivity) || (right; left; reflexivity));
         destruct Hz as [-> | [-> | (mz & ez & ->)]]; cbn [SFadd];
         (left; reflexivity) || (right; left; reflexivity)
         || (right; right; eexists; eexists; reflexivity)).
  assert (xorb sx sy = false) as E.
  { symmetry. apply (signed_unique false _ _ Hp).
    apply binary_round_aux_signed. lia. }
  rewrite E in *.
  destruct Hz as [-> | [-> | (mz & ez & ->)]].
  - exact Hp.
  - right; left; reflexivity.
  - cbn [cond_Zopp Z.add binary_normalize]. apply binary_round_signed.
Qed.

(** A fused square does not see the sign of its factor. *)
Lemma fma_abs (u r : float) : fma (abs u) (abs u) r = fma u u r.
Proof.
  unfold fma. rewrite abs_spec. f_equal.
  destruct (Prim2SF u) as [s|s| |s m e]; cbn [SFabs SFfma];
    try reflexivity; destruct s; reflexivity.
Qed.

(** The two zeros are closed under addition. *)
Lemma zeros_add (a b : float) :
  a = 0 \/ a = neg_zero -> b = 0 \/ b = neg_zero ->
  a + b = 0 \/ a + b = neg_zero.
Proof.
  intros [-> | ->] [-> | ->]; [left|left|left|right]; reflexivity.
Qed.

(** A float other than [-0.0] is left unchanged by [0.0]. *)
Lemma add_pos_zero (v : float) :
  v <> neg_zero -> 0 + v = v /\ v + 0 = v.
Proof.
  intros Hv. destruct (v =? 0) eqn:Ev.
  - destruct (eqb_zero v Ev) as [-> | ->]; [|congruence].
    split; reflexivity.
  - split; [apply add_zero_l|apply add_zero_r]; try exact Ev;
      left; reflexivity.
Qed.

End FusedFacts.
(** * The reference library meets the interface *)

Module RefLibmFacts.

Import Numpy RefLibm FloatSigns.
Open Scope float_scope.

Lemma ref_cos_infinity : ref_cos infinity = nan.
Proof. reflexivity. Qed.

Lemma ref_cos_neg_infinity : ref_cos neg_infinity = nan.
Proof. reflexivity. Qed.

Lemma ref_pow_zero_exponent (x : float) : ref_pow x 0 = 1.
Proof. reflexivity. Qed.

Lemma ref_pow_zero_base_two : ref_pow 0 2 = 0.
Proof. vm_compute. reflexivity. Qed.

Lemma ref_pow_ten_nan : ref_pow 10 nan = nan.
Proof. vm_compute. reflexivity. Qed.

Lemma ref_pow_ten_six : ref_pow 10 6 = 1000000.
Proof. vm_compute. reflexivity. Qed.

Lemma ref_pow_ten_finite (y : float) :
  (y <=? 308) = true -> is_finite (ref_pow 10 y) = true.
Proof.
  intros Hy. unfold ref_pow.
  destruct (y =? 0); [reflexivity|].
  change (10 =? 1) with false. change (is_nan 10) with false. cbn [orb].
  destruct (is_nan y) eqn:Hn.
  - rewrite (is_nan_true y Hn) in Hy. discriminate.
  - change (10 =? 10) with true. rewrite Hy. cbn [andb].
    destruct (is_finite (pow_series 10 y)) eqn:E; [exact E|reflexivity].
Qed.

Definition ref_libm : Libm := {|
  cos := ref_cos;
  arctan := ref_arctan;
  exp := ref_exp;
  pow := ref_pow;
  cos_infinity := ref_cos_infinity;
  cos_neg_infinity := ref_cos_neg_infinity;
  pow_zero_exponent := ref_pow_zero_exponent;
  pow_zero_base_two := ref_pow_zero_base_two;
  pow_ten_nan := ref_pow_ten_nan;
  pow_ten_six := ref_pow_ten_six;
  pow_ten_finite := ref_pow_ten_finite
|}.

End RefLibmFacts.

(** * Facts about indexing and accumulation *)

Module NumpyFacts.

Import Numpy FloatSigns FloatArith.
Open Scope float_scope.

Lemma getitem_nonneg (x : vec) (i : Z) (v : float) :
  (0 <= i)%Z -> nth_error x (Z.to_nat i) = Some v -> getitem x i = Ok v.
Proof.
  intros Hi Hn. unfold getitem.
  assert (Z.to_nat i < length x)%nat as Hlt.
  { apply nth_error_Some. congruence. }
  destruct (Z.ltb_spec i 0) as [?|_]; [lia|].
  destruct (Z.ltb_spec i 0) as [?|_]; [lia|].
  destruct (Z.leb_spec (Z.of_nat (length x)) i) as [?|_]; [lia|].
  cbn [orb]. rewrite Hn. reflexivity.
Qed.

Lemma getitem_0 (a : float) (t : vec) : getitem (a :: t) 0 = Ok a.
Proof. apply getitem_nonneg; [lia|reflexivity]. Qed.

Lemma getitem_1 (a b : float) (t : vec) : getitem (a :: b :: t) 1 = Ok b.
Proof. apply getitem_nonneg; [lia|reflexivity]. Qed.

Lemma nth_error_last (x : vec) (d : float) :
  x <> [] -> nth_error x (length x - 1) = Some (last x d).
Proof.
  induction x as [|a t IH]; [congruence|]. intros _.
  destruct t as [|b t']; [reflexivity|].
  cbn [length] in *. replace (S (S (length t')) - 1)%nat with (S (length t')) by lia.
  cbn [nth_error]. replace (length t') with (S (length t') - 1)%nat by lia.
  rewrite IH by discriminate. reflexivity.
Qed.

Lemma getitem_neg_one (x : vec) :
  x <> [] -> getitem x (-1) = Ok (last x 0).
Proof.
  intros Hx. unfold getitem.
  assert (0 < length x)%nat as Hlen.
  { destruct x; [congruence|cbn; lia]. }
  change (-1 <? 0)%Z with true. cbn iota.
  destruct (Z.ltb_spec (-1 + Z.of_nat (length x)) 0) as [?|_]; [lia|].
  destruct (Z.leb_spec (Z.of_nat (length x)) (-1 + Z.of_nat (length x)))
    as [?|_]; [lia|].
  cbn [orb].
  replace (Z.to_nat (-1 + Z.of_nat (length x))) with (length x - 1)%nat by lia.
  rewrite (nth_error_last x 0 Hx). reflexivity.
Qed.

Lemma fold_combine_diag (x : vec) (acc : float) :
  fold_left (fun a p => a + fst p * snd p) (combine x x) acc =
  fold_left (fun a v => a + v * v) x acc.
Proof.
  revert acc. induction x as [|v t IH]; intros acc; [reflexivity|].
  cbn [combine fold_left fst snd]. apply IH.
Qed.

Lemma combine_app_same_length {A B : Type} (a a' : list A) (b b' : list B) :
  length a = length b ->
  combine (a ++ a') (b ++ b') = combine a b ++ combine a' b'.
Proof.
  revert b. induction a as [|u a IH]; intros [|v b] H; try discriminate.
  - reflexivity.
  - cbn. f_equal. apply IH. cbn in H. lia.
Qed.

Lemma square_zeros (k : nat) : square (repeat 0 k) = repeat 0 k.
Proof.
  unfold square. induction k as [|k IH]; [reflexivity|].
  cbn [repeat map]. rewrite IH. reflexivity.
Qed.

Lemma square_app (a b : vec) : square (a ++ b) = square a ++ square b.
Proof. apply map_app. Qed.

Lemma Forall_removelast {A : Type} (P : A -> Prop) (x : list A) :
  Forall P x -> Forall P (removelast x).
Proof.
  induction x as [|a t IH]; intros H; [constructor|].
  cbn [removelast]. destruct t as [|b t']; [constructor|].
  constructor; [exact (Forall_inv H)|exact (IH (Forall_inv_tail H))].
Qed.

Lemma Forall_tl {A : Type} (P : A -> Prop) (x : list A) :
  Forall P x -> Forall P (tl x).
Proof. destruct x; intros H; [constructor|exact (Forall_inv_tail H)]. Qed.

Lemma Forall_set_last (P : float -> Prop) (y : vec) (c : float) :
  Forall P y -> P c -> Forall P (set_last y c).
Proof.
  intros Hy Hc. unfold set_last. destruct y as [|a t]; [constructor|].
  apply Forall_app. split; [apply Forall_removelast, Hy|].
  constructor; [exact Hc|constructor].
Qed.

End NumpyFacts.

(** * Facts about the reduction kernels

    What holds of [dot] and [sum] for every schedule. *)

Module KernelFacts.

Import Numpy Reduction NumpyFacts.
Import FloatClasses FloatFacts FloatSigns FloatArith FusedFacts.
Open Scope float_scope.

Lemma nth_forallb {A : Type} (f : A -> bool) (l : list A) (d : A) (i : nat) :
  forallb f l = true -> (i < length l)%nat -> f (nth i l d) = true.
Proof.
  intros H Hi. rewrite forallb_forall in H. apply H, nth_In, Hi.
Qed.

Lemma NoDup_app_disjoint {A : Type} (a b : list A) (x : A) :
  NoDup (a ++ b) -> In x a -> ~ In x b.
Proof.
  induction a as [|y a IH]; intros Hn Hin; [contradiction|].
  cbn [app] in Hn. inversion Hn as [|? ? Hy Hn']; subst.
  destruct Hin as [->|Hin]; [|exact (IH Hn' Hin)].
  intros Hb. apply Hy, in_or_app. right. exact Hb.
Qed.

(** *** Schedules run on products *)

Lemma eval_dot_zero_terms (l : list (float * float)) (s : shape) :
  forallb zero_term l = true ->
  Forall (fun i => (i < length l)%nat) (leaves s) ->
  eval_dot l s = 0 \/ eval_dot l s = neg_zero.
Proof.
  intros Hl. induction s as [|i|i s IH|s1 IH1 s2 IH2]; cbn [leaves eval_dot];
    intros Hs.
  - left; reflexivity.
  - apply zero_term_product, nth_forallb; [exact Hl|exact (Forall_inv Hs)].
  - pose proof (nth_forallb zero_term l (0, 0) i Hl (Forall_inv Hs)) as Hi.
    rewrite fma_zero_pair by (destruct (nth i l (0, 0)); exact Hi).
    apply zeros_add; [apply zero_term_product, Hi|].
    apply IH. exact (Forall_inv_tail Hs).
  - apply Forall_app in Hs as [H1 H2]. apply zeros_add; auto.
Qed.

Lemma eval_dot_nan_term (l : list (float * float)) (s : shape) (k : nat) :
  nan_term (nth k l (0, 0)) = true ->
  In k (leaves s) -> eval_dot l s = nan.
Proof.
  intros Hk. induction s as [|i|i s IH|s1 IH1 s2 IH2]; cbn [leaves eval_dot];
    intros Hin.
  - contradiction.
  - destruct Hin as [->|[]]. apply is_nan_true. exact Hk.
  - destruct Hin as [->|Hin].
    + apply fma_nan_product. exact Hk.
    + rewrite (IH Hin). apply fma_nan_acc.
  - apply in_app_or in Hin as [Hin|Hin].
    + rewrite (IH1 Hin). apply nan_add_l.
    + rewrite (IH2 Hin). apply nan_add_r.
Qed.

Lemma eval_dot_nonneg (l : list (float * float)) (s : shape) :
  Forall (fun p => nonneg_class (fst p * snd p)) l ->
  Forall (fun i => (i < length l)%nat) (leaves s) ->
  nonneg_class (eval_dot l s).
Proof.
  intros Hl. rewrite Forall_forall in Hl.
  induction s as [|i|i s IH|s1 IH1 s2 IH2]; cbn [leaves eval_dot];
    intros Hs.
  - exact nonneg_class_zero.
  - apply Hl, nth_In. exact (Forall_inv Hs).
  - apply fma_nonneg; [apply Hl, nth_In; exact (Forall_inv Hs)|].
    apply IH. exact (Forall_inv_tail Hs).
  - apply Forall_app in Hs as [H1 H2]. apply add_nonneg_class; auto.
Qed.

Lemma eval_dot_abs (x : vec) (s : shape) :
  eval_dot (combine (map abs x) (map abs x)) s = eval_dot (combine x x) s.
Proof.
  assert (forall i, nth i (combine (map abs x) (map abs x)) (0, 0)
                    = (abs (nth i x 0), abs (nth i x 0))) as Ha.
  { intros i. rewrite combine_nth by reflexivity.
    change 0 with (abs 0) at 1 2. rewrite map_nth. reflexivity. }
  assert (forall i, nth i (combine x x) (0, 0) = (nth i x 0, nth i x 0)) as Hx
    by (intros i; apply combine_nth; reflexivity).
  induction s as [|i|i s IH|s1 IH1 s2 IH2]; cbn [eval_dot].
  - reflexivity.
  - rewrite Ha, Hx. cbn [fst snd]. apply mul_abs_abs.
  - rewrite Ha, Hx, IH. cbn [fst snd]. apply fma_abs.
  - rewrite IH1, IH2. reflexivity.
Qed.

(** One pair among pairs whose products are exact zeros. *)
Section SingleTerm.

Variables (l1 l2 : list (float * float)) (p : float * float).
Hypothesis zeros_before : forallb zero_term l1 = true.
Hypothesis zeros_after : forallb zero_term l2 = true.
Hypothesis not_zero : (fst p * snd p =? 0) = false.

Lemma nth_single_other (i : nat) :
  (i < length (l1 ++ p :: l2))%nat -> i <> length l1 ->
  zero_term (nth i (l1 ++ p :: l2) (0, 0)) = true.
Proof.
  intros Hi Hne. rewrite length_app in Hi. cbn [length] in Hi.
  destruct (Nat.lt_ge_cases i (length l1)) as [Hlt|Hge].
  - rewrite app_nth1 by exact Hlt. apply nth_forallb; assumption.
  - rewrite app_nth2 by exact Hge.
    destruct (i - length l1)%nat as [|j] eqn:E; [lia|].
    cbn [nth]. apply nth_forallb; [exact zeros_after|lia].
Qed.

Lemma eval_dot_single (s : shape) :
  NoDup (leaves s) ->
  Forall (fun i => (i < length (l1 ++ p :: l2))%nat) (leaves s) ->
  (In (length l1) (leaves s) ->
   eval_dot (l1 ++ p :: l2) s = fst p * snd p) /\
  (~ In (length l1) (leaves s) ->
   eval_dot (l1 ++ p :: l2) s = 0 \/ eval_dot (l1 ++ p :: l2) s = neg_zero).
Proof.
  induction s as [|i|i s IH|s1 IH1 s2 IH2]; cbn [leaves eval_dot];
    intros Hn Hs.
  - split; [contradiction|left; reflexivity].
  - split.
    + intros [->|[]]. rewrite nth_middle. reflexivity.
    + intros Hi. apply zero_term_product, nth_single_other;
        [exact (Forall_inv Hs)|]. intros ->. apply Hi. left; reflexivity.
  - inversion Hn as [|? ? Hi Hn']; subst.
    destruct (IH Hn' (Forall_inv_tail Hs)) as [IHin IHout].
    split.
    + intros [->|Hin].
      * rewrite nth_middle. apply fma_zero_acc; [exact (IHout Hi)|].
        exact not_zero.
      * assert (i <> length l1) as Hne by (intros ->; exact (Hi Hin)).
        pose proof (nth_single_other i (Forall_inv Hs) Hne) as Hz.
        rewrite fma_zero_pair
          by (destruct (nth i (l1 ++ p :: l2) (0, 0)); exact Hz).
        rewrite (IHin Hin). apply add_zero_l; [exact not_zero|].
        apply zero_term_product, Hz.
    + intros Hout.
      assert (i <> length l1) as Hne
        by (intros ->; apply Hout; left; reflexivity).
      pose proof (nth_single_other i (Forall_inv Hs) Hne) as Hz.
      rewrite fma_zero_pair
        by (destruct (nth i (l1 ++ p :: l2) (0, 0)); exact Hz).
      apply zeros_add; [apply zero_term_product, Hz|].
      apply IHout. intros Hin. apply Hout. right. exact Hin.
  - apply Forall_app in Hs as [Hs1 Hs2].
    destruct (IH1 (NoDup_app_remove_r _ _ Hn) Hs1) as [IH1in IH1out].
    destruct (IH2 (NoDup_app_remove_l _ _ Hn) Hs2) as [IH2in IH2out].
    split.
    + intros Hin. apply in_app_or in Hin as [Hin|Hin].
      * rewrite (IH1in Hin). apply add_zero_r; [exact not_zero|].
        apply IH2out. exact (NoDup_app_disjoint _ _ _ Hn Hin).
      * rewrite (IH2in Hin). apply add_zero_l; [exact not_zero|].
        apply IH1out. intros Hin1.
        exact (NoDup_app_disjoint _ _ _ Hn Hin1 Hin).
    + intros Hout. apply zeros_add.
      * apply IH1out. intros Hin. apply Hout, in_or_app. left; exact Hin.
      * apply IH2out. intros Hin. apply Hout, in_or_app. right; exact Hin.
Qed.

End SingleTerm.

(** *** Schedules run on elements *)

Lemma eval_sum_no_leaves (x : vec) (s : shape) :
  leaves s = [] -> eval_sum x s = 0.
Proof.
  induction s as [|i|i s IH|s1 IH1 s2 IH2]; cbn [leaves eval_sum];
    intros H; try discriminate; [reflexivity|].
  apply app_eq_nil in H as [H1 H2]. rewrite (IH1 H1), (IH2 H2). reflexivity.
Qed.

Lemma eval_sum_single (x : vec) (s : shape) (k : nat) :
  leaves s = [k] -> nth k x 0 <> neg_zero -> eval_sum x s = nth k x 0.
Proof.
  intros Hs Hv. revert Hs.
  induction s as [|i|i s IH|s1 IH1 s2 IH2]; cbn [leaves eval_sum]; intros Hs.
  - discriminate.
  - injection Hs as ->. reflexivity.
  - injection Hs as -> Hs. rewrite (eval_sum_no_leaves x s Hs).
    apply (add_pos_zero _ Hv).
  - apply app_eq_unit in Hs as [[H1 H2]|[H1 H2]].
    + rewrite (eval_sum_no_leaves x s1 H1), (IH2 H2).
      apply (add_pos_zero _ Hv).
    + rewrite (IH1 H1), (eval_sum_no_leaves x s2 H2).
      apply (add_pos_zero _ Hv).
Qed.

(** *** The kernels *)

Section WithKernels.

Context {K : Kernels}.

Lemma dot_schedule_bounds (n : nat) :
  Forall (fun i => (i < n)%nat) (leaves (dot_schedule n)).
Proof.
  apply Forall_forall. intros i Hi.
  apply (Permutation_in _ (dot_schedule_leaves n)), in_seq in Hi. lia.
Qed.

Lemma dot_schedule_NoDup (n : nat) : NoDup (leaves (dot_schedule n)).
Proof.
  apply (Permutation_NoDup (Permutation_sym (dot_schedule_leaves n))).
  apply seq_NoDup.
Qed.

Lemma dot_schedule_In (n i : nat) :
  (i < n)%nat -> In i (leaves (dot_schedule n)).
Proof.
  intros Hi. apply (Permutation_in _ (Permutation_sym (dot_schedule_leaves n))).
  apply in_seq. lia.
Qed.

(** Products that are all exact zeros add up to [0.0]. *)
Lemma dot_zero_terms (a b : vec) :
  forallb zero_term (combine a b) = true -> dot a b = 0.
Proof.
  intros H. unfold dot.
  apply zero_add_zero, eval_dot_zero_terms;
    [exact H|apply dot_schedule_bounds].
Qed.

(** A single product among exact zeros is the result. *)
Lemma dot_single_term (a1 b1 : vec) (u v : float) (a2 b2 : vec) :
  length a1 = length b1 ->
  forallb zero_term (combine a1 b1) = true ->
  forallb zero_term (combine a2 b2) = true ->
  (u * v =? 0) = false ->
  dot (a1 ++ u :: a2) (b1 ++ v :: b2) = u * v.
Proof.
  intros H1 Hz1 Hz2 Huv. unfold dot.
  rewrite (combine_app_same_length a1 (u :: a2) b1 (v :: b2) H1).
  cbn [combine].
  set (l1 := combine a1 b1) in *. set (l2 := combine a2 b2) in *.
  destruct (eval_dot_single l1 l2 (u, v) Hz1 Hz2 Huv
              (dot_schedule (length (l1 ++ (u, v) :: l2)))
              (dot_schedule_NoDup _) (dot_schedule_bounds _)) as [Hin _].
  rewrite Hin.
  - apply add_zero_l; [exact Huv|left; reflexivity].
  - apply dot_schedule_In. rewrite length_app. cbn [length]. lia.
Qed.

(** A product that is [nan] makes the result [nan]. *)
Lemma dot_nan_term (a b : vec) :
  existsb nan_term (combine a b) = true -> dot a b = nan.
Proof.
  intros H. apply existsb_exists in H as (p & Hp & Hn).
  apply (In_nth _ _ (0, 0)) in Hp as (k & Hk & <-). unfold dot.
  rewrite (eval_dot_nan_term _ _ k Hn (dot_schedule_In _ k Hk)).
  reflexivity.
Qed.

(** Products with the sign bit clear add up to such a value. *)
Lemma dot_nonneg_terms (a b : vec) :
  Forall (fun p => nonneg_class (fst p * snd p)) (combine a b) ->
  nonneg_class (dot a b).
Proof.
  intros H. unfold dot. apply add_nonneg_class; [exact nonneg_class_zero|].
  apply eval_dot_nonneg; [exact H|apply dot_schedule_bounds].
Qed.

(** Squares do not see the sign of the coordinates. *)
Lemma dot_diag_abs (x : vec) : dot x x = dot (map abs x) (map abs x).
Proof.
  unfold dot. rewrite eval_dot_abs, !length_combine, !length_map.
  reflexivity.
Qed.

Lemma sum_nil : sum [] = 0.
Proof. reflexivity. Qed.

(** [np.sum] of a single element other than [-0.0] is that element. *)
Lemma sum_single (v : float) : v <> neg_zero -> sum [v] = v.
Proof.
  intros Hv. unfold sum. cbn [length].
  apply (eval_sum_single [v] _ 0%nat); [|exact Hv].
  apply Permutation_length_1_inv, Permutation_sym.
  exact (sum_schedule_leaves 1).
Qed.

End WithKernels.

End KernelFacts.

(** * The reference kernels *)

Module RefKernelsFacts.

Import Reduction RefKernels.

Lemma chain_leaves (n : nat) : Permutation (leaves (chain n)) (seq 0 n).
Proof.
  assert (leaves (chain n) = seq 0 n) as ->; [|apply Permutation_refl].
  induction n as [|n IH]; [reflexivity|].
  cbn [chain leaves]. rewrite IH, seq_S. reflexivity.
Qed.

Lemma checked_leaves (n : nat) (s : shape) :
  Permutation (leaves (checked n s)) (seq 0 n).
Proof.
  unfold checked. destruct (reads_each_once n s) eqn:E; [|apply chain_leaves].
  unfold reads_each_once in E. apply andb_prop in E as [Hlen Hall].
  apply Permutation_sym, NoDup_Permutation_bis.
  - apply seq_NoDup.
  - rewrite length_seq. apply Nat.leb_le. exact Hlen.
  - intros i Hi. rewrite forallb_forall in Hall.
    specialize (Hall i Hi). apply existsb_exists in Hall as (j & Hj & Eij).
    apply Nat.eqb_eq in Eij. subst j. exact Hj.
Qed.

Lemma pairwise_schedule_leaves (n : nat) :
  Permutation (leaves (pairwise_schedule n)) (seq 0 n).
Proof. apply checked_leaves. Qed.

Lemma blocked_schedule_leaves (n : nat) :
  Permutation (leaves (blocked_schedule n)) (seq 0 n).
Proof. apply checked_leaves. Qed.

(** The plain loops. *)
Definition ref_kernels : Kernels := {|
  dot_schedule := chain;
  sum_schedule := chain;
  dot_schedule_leaves := chain_leaves;
  sum_schedule_leaves := chain_leaves
|}.

(** The blocked loops. *)
Definition blocked_kernels : Kernels := {|
  dot_schedule := blocked_schedule;
  sum_schedule := pairwise_schedule;
  dot_schedule_leaves := blocked_schedule_leaves;
  sum_schedule_leaves := pairwise_schedule_leaves
|}.

End RefKernelsFacts.

(** * Facts about the benchmark functions *)

Module CorefuncsFacts.

Import Numpy Reduction Corefuncs NumpyFacts KernelFacts.
Import FloatClasses FloatMagnitude.
Open Scope float_scope.

Lemma zero_terms_zeros (k : nat) :
  forallb zero_term (combine (repeat 0 k) (repeat 0 k)) = true.
Proof. induction k as [|k IH]; [reflexivity|exact IH]. Qed.

(** Finite weights against zero coordinates give products that are
    zeros. *)
Lemma zero_terms_finite (ws : vec) (k : nat) :
  forallb is_finite ws = true ->
  forallb zero_term (combine ws (repeat 0 k)) = true.
Proof.
  revert k. induction ws as [|w ws IH]; intros k Hf; [reflexivity|].
  destruct k as [|k]; [reflexivity|].
  cbn [forallb] in Hf. apply andb_prop in Hf as [Hw Hws].
  cbn [repeat combine forallb]. rewrite (IH k Hws), andb_true_r.
  unfold zero_term. cbn [fst snd]. rewrite Hw.
  change (0 =? 0) with true. apply orb_true_r.
Qed.

Section WithKernels.

Context {K : Kernels}.

Lemma sphere_zeros (d : nat) : sphere (zeros d) = 0.
Proof.
  unfold sphere, zeros. apply dot_zero_terms, zero_terms_zeros.
Qed.

Lemma sphere_abs (x : vec) : sphere x = sphere (map abs x).
Proof. apply dot_diag_abs. Qed.

End WithKernels.

(** The abscissae [np.linspace(0, 6, d)] for [d >= 2]: the last one is
    exactly [6]; the first one is [0] unless the step is degenerate. *)
Lemma linspace_shape (n : nat) :
  exists a mid,
    linspace 0 6 (S (S n)) = a :: mid ++ [6] /\
    length mid = n /\
    (a = 0 \/ a = nan).
Proof.
  unfold linspace.
  change (1 <? S (S n))%nat with true. cbn iota.
  change (6 - 0) with 6.
  set (dv := float_of_int (Z.of_nat (S (S n) - 1))).
  set (h := fun v : float => v * (6 / dv)).
  set (h' := fun v : float => v / dv * 6).
  assert (forall g : float -> float,
            (g 0 + 0 = 0 \/ g 0 + 0 = nan) ->
            exists a mid,
              set_last (add_scalar (map g (arange (S (S n)))) 0) 6
              = a :: mid ++ [6] /\ length mid = n /\ (a = 0 \/ a = nan)) as Hg.
  { intros g Hg0. unfold arange, add_scalar.
    change (seq 0 (S (S n))) with (0%nat :: seq 1 (S n)).
    cbn [map]. change (float_of_int (Z.of_nat 0)) with 0.
    set (rest := map (fun v : float => v + 0) _).
    assert (length rest = S n) as Hr.
    { unfold rest. rewrite !length_map, length_seq. reflexivity. }
    exists (g 0 + 0), (removelast rest). split; [|split].
    - unfold set_last. destruct rest as [|b rest']; [discriminate|].
      reflexivity.
    - destruct rest as [|b rest'] using rev_ind; [discriminate|].
      rewrite removelast_last. rewrite length_app in Hr. cbn in Hr. lia.
    - exact Hg0. }
  destruct (6 / dv =? 0).
  - apply (Hg h'). unfold h'.
    apply FloatFacts.zero_or_nan_add_zero, FloatFacts.zero_or_nan_mul_six,
      FloatFacts.zero_div.
  - apply (Hg h). unfold h.
    apply FloatFacts.zero_or_nan_add_zero, FloatFacts.zero_mul.
Qed.

Lemma set_last_length (y : vec) (c : float) :
  length (set_last y c) = length y.
Proof.
  unfold set_last. destruct y as [|a t]; [reflexivity|].
  destruct (exists_last (l := a :: t) ltac:(discriminate)) as (l' & b & ->).
  rewrite removelast_last, !length_app. reflexivity.
Qed.

Lemma linspace_length (a b : float) (num : nat) :
  length (linspace a b num) = num.
Proof.
  unfold linspace.
  assert (forall g : float -> float,
            length (add_scalar (map g (arange num)) a) = num) as H.
  { intros g. unfold add_scalar, arange.
    rewrite !length_map, length_seq. reflexivity. }
  destruct (1 <? num)%nat.
  - rewrite set_last_length. destruct (_ =? 0); apply H.
  - apply H.
Qed.

(** The abscissae [np.linspace(0, 6, d)] are below [2^7] for every size
    [d] of an array. *)
Lemma linspace_below (d : nat) :
  (Z.of_nat d <= npy_intp_max)%Z ->
  Forall (fun y => below_pow2 7 (Prim2SF y)) (linspace 0 6 d).
Proof.
  unfold npy_intp_max. intros Hd.
  destruct d as [|[|n]]; [constructor| |].
  { change (linspace 0 6 1) with [0]. constructor; [exact I|constructor]. }
  unfold linspace.
  change (1 <? S (S n))%nat with true. cbn iota.
  change (6 - 0) with 6. change (S (S n) - 1)%nat with (S n).
  set (dv := float_of_int (Z.of_nat (S n))).
  set (D := Zdigits2 (Z.of_nat (S n))).
  pose proof (Zdigits2_bounds (Z.of_nat (S n)) ltac:(lia)) as [_ HD].
  pose proof (Zdigits2_positive (Z.of_nat (S n)) ltac:(lia)) as HD1.
  pose proof (Zdigits2_le (Z.of_nat (S n)) 63 ltac:(lia) ltac:(lia)) as HD63.
  fold D in HD, HD1, HD63.
  assert (above_pow2 D (Prim2SF dv)) as Hdv
    by (apply float_of_int_above; lia).
  assert (below_pow2 3 (Prim2SF 6)) as H6.
  { change (Prim2SF 6) with (S754_finite false 6755399441055744 (-50)).
    cbn. lia. }
  assert (Forall (fun v => below_pow2 (D + 1) (Prim2SF v)) (arange (S (S n))))
    as Har.
  { unfold arange. apply Forall_forall. intros v Hin.
    apply in_map_iff in Hin as (i & <- & Hi). apply in_seq in Hi.
    apply float_of_int_below; lia. }
  apply Forall_set_last; [|exact (below_pow2_mono 3 7 _ ltac:(lia) H6)].
  unfold add_scalar. apply Forall_map.
  destruct (6 / dv =? 0).
  - apply Forall_map. revert Har. apply Forall_impl. intros v Hv.
    apply add_zero_below.
    apply (below_pow2_mono (3 + 3 + 1)); [lia|].
    apply mul_below; [|exact H6|lia].
    apply (below_pow2_mono (D + 1 - D + 2)); [lia|].
    apply div_below; [exact Hv|exact Hdv|lia].
  - apply Forall_map. revert Har. apply Forall_impl. intros v Hv.
    apply add_zero_below.
    apply (below_pow2_mono (D + 1 + (3 - D + 2) + 1)); [lia|].
    apply mul_below; [exact Hv| |lia].
    apply div_below; [exact H6|exact Hdv|lia].
Qed.

Section WithLibm.

Context {L : Libm}.

Lemma ellipsoid_weights_length (d : nat) :
  length (ellipsoid_weights d) = d.
Proof. unfold ellipsoid_weights. rewrite length_map. apply linspace_length. Qed.

(** The weights of [ellipsoid] are finite in every dimension. *)
Lemma ellipsoid_weights_finite (d : nat) :
  (Z.of_nat d <= npy_intp_max)%Z ->
  forallb is_finite (ellipsoid_weights d) = true.
Proof.
  intros Hd. unfold ellipsoid_weights. apply forallb_forall. intros w Hin.
  apply in_map_iff in Hin as (y & <- & Hy).
  apply pow_ten_finite, below_leb_308.
  pose proof (linspace_below d Hd) as H.
  rewrite Forall_forall in H. exact (H y Hy).
Qed.

(** The weights of [ellipsoid] in dimension [d >= 2], when finite: [1] on
    the first axis and [10^6] on the last. *)
Lemma ellipsoid_weights_shape (n : nat) :
  forallb is_finite (ellipsoid_weights (S (S n))) = true ->
  exists ws,
    ellipsoid_weights (S (S n)) = 1 :: ws ++ [1000000] /\
    length ws = n /\
    forallb is_finite ws = true.
Proof.
  unfold ellipsoid_weights.
  destruct (linspace_shape n) as (a & mid & -> & Hlen & Ha).
  cbn [map]. rewrite map_app. cbn [map]. rewrite pow_ten_six.
  intros Hf. cbn [forallb] in Hf. apply andb_prop in Hf as [Hfa Hfr].
  rewrite forallb_app in Hfr. apply andb_prop in Hfr as [Hfm _].
  exists (map (pow 10) mid). split; [|split].
  - destruct Ha as [-> | ->].
    + rewrite pow_zero_exponent. reflexivity.
    + rewrite pow_ten_nan in Hfa. discriminate.
  - rewrite length_map. exact Hlen.
  - exact Hfm.
Qed.

End WithLibm.

End CorefuncsFacts.

(** * More facts about the discrete cores *)

Module DiscreteMore.

Import Discrete DiscreteFacts.

Section Cores.

Context {A : Type}.
Variable int_round : A -> Z.

Lemma len_nonneg (x : list A) : (0 <= len x)%Z.
Proof. unfold len. lia. Qed.

Lemma leading_bounds (x : list A) :
  (0 <= leading int_round x <= ones int_round x)%Z.
Proof.
  induction x as [|w t IH]; [cbn; lia|].
  cbn [leading ones]. pose proof (ones_bounds int_round t).
  destruct (int_round w =? 1)%Z; lia.
Qed.

Lemma ones_full (x : list A) :
  ones int_round x = len x <-> Forall (fun w => int_round w = 1%Z) x.
Proof.
  induction x as [|w t IH]; [split; [constructor|reflexivity]|].
  rewrite len_cons. cbn [ones]. pose proof (ones_bounds int_round t) as Hb.
  destruct (Z.eqb_spec (int_round w) 1) as [E|E]; split; intros H.
  - constructor; [exact E|]. apply IH. lia.
  - apply Forall_inv_tail, IH in H. lia.
  - lia.
  - apply Forall_inv in H. contradiction.
Qed.

Lemma leading_full (x : list A) :
  leading int_round x = len x <-> Forall (fun w => int_round w = 1%Z) x.
Proof.
  induction x as [|w t IH]; [split; [constructor|reflexivity]|].
  rewrite len_cons. cbn [leading]. pose proof (leading_bounds t) as Hb.
  pose proof (ones_bounds int_round t) as Hb'. pose proof (len_nonneg t) as Hl.
  destruct (Z.eqb_spec (int_round w) 1) as [E|E]; split; intros H.
  - constructor; [exact E|]. apply IH. lia.
  - apply Forall_inv_tail, IH in H. lia.
  - lia.
  - apply Forall_inv in H. contradiction.
Qed.

(** The loop of [_leadingones] stops at the end of the longest prefix of
    ones and returns the length of what is left. *)
Lemma leadingones_loop_split (n i : Z) (x : list A) :
  (i + len x = n)%Z ->
  exists p r,
    x = p ++ r /\
    Forall (fun w => int_round w = 1%Z) p /\
    match r with [] => True | w :: _ => int_round w <> 1%Z end /\
    leadingones_loop int_round n i x = len r.
Proof.
  revert i. induction x as [|w t IH]; intros i Hn.
  - exists [], []. repeat split; constructor.
  - rewrite len_cons in Hn. cbn [leadingones_loop].
    destruct (Z.eqb_spec (int_round w) 1) as [E|E]; cbn [negb].
    + destruct (IH (i + 1)%Z ltac:(lia)) as (p & r & -> & Hp & Hr & Hl).
      exists (w :: p), r. repeat split; [constructor; assumption|exact Hr|exact Hl].
    + exists [], (w :: t). rewrite len_cons.
      repeat split; [constructor|exact E|lia].
Qed.

End Cores.

End DiscreteMore.

(** * More facts about the benchmark functions *)

Module CorefuncsMoreFacts.

Import Numpy Reduction Corefuncs CorefuncsMore.
Import NumpyFacts KernelFacts CorefuncsFacts.
Import FloatClasses FloatFacts FloatSigns FloatArith.
Open Scope float_scope.

Lemma combine_map_map {A B C : Type} (f : A -> B) (g : A -> C) (x : list A) :
  combine (map f x) (map g x) = map (fun v => (f v, g v)) x.
Proof. induction x as [|v t IH]; [reflexivity|]. cbn. rewrite IH. reflexivity. Qed.

Lemma combine_repeat {A B : Type} (a : A) (b : B) (k : nat) :
  combine (repeat a k) (repeat b k) = repeat (a, b) k.
Proof. induction k as [|k IH]; [reflexivity|]. cbn. rewrite IH. reflexivity. Qed.

Lemma removelast_repeat {A : Type} (a : A) (k : nat) :
  removelast (repeat a (S k)) = repeat a k.
Proof.
  induction k as [|k IH]; [reflexivity|].
  change (repeat a (S (S k))) with (a :: repeat a (S k)).
  cbn [removelast]. change (repeat a (S k)) with (a :: repeat a k) at 1.
  rewrite IH. reflexivity.
Qed.

Lemma rev_repeat_same {A : Type} (a : A) (k : nat) :
  rev (repeat a k) = repeat a k.
Proof.
  induction k as [|k IH]; [reflexivity|].
  cbn [repeat rev]. rewrite IH.
  clear IH. induction k as [|k IH]; [reflexivity|].
  cbn [repeat app]. rewrite IH. reflexivity.
Qed.

Lemma squares_nonneg_class (x : vec) :
  Forall number x ->
  Forall (fun p => nonneg_class (fst p * snd p)) (combine x x).
Proof.
  induction x as [|v t IH]; intros Hx; [constructor|].
  cbn [combine]. constructor.
  - apply square_nonneg_class. exact (Forall_inv Hx).
  - exact (IH (Forall_inv_tail Hx)).
Qed.

Lemma sphere_nonneg_class {K : Kernels} (x : vec) :
  Forall number x -> nonneg_class (sphere x).
Proof.
  intros Hx. unfold sphere.
  apply dot_nonneg_terms, squares_nonneg_class, Hx.
Qed.

(** Coordinates that compare equal have the same absolute values, and
    are numbers. *)
Lemma eqb_all_abs (y x : vec) :
  length y = length x ->
  forallb (fun p => fst p =? snd p) (combine y x) = true ->
  map abs y = map abs x /\ Forall number x.
Proof.
  revert x. induction y as [|u y IH]; intros [|v x] Hlen H; try discriminate.
  - split; [reflexivity|constructor].
  - cbn [combine forallb fst snd] in H. apply andb_prop in H as [Huv H].
    cbn [length] in Hlen. injection Hlen as Hlen.
    destruct (IH x Hlen H) as [E F]. cbn [map]. split.
    + rewrite E, (eqb_abs u v Huv). reflexivity.
    + constructor; [exact (eqb_number u v Huv)|exact F].
Qed.

Lemma map_abs_negate (x : vec) : map abs (negate x) = map abs x.
Proof.
  unfold negate. rewrite map_map. apply map_ext. exact abs_opp.
Qed.

(** A shift that is exact on [x] leaves the sphere unchanged. *)
Lemma sphere_shift_exact {K : Kernels} (k : float) (x : vec) :
  exact_shift k x = true ->
  sphere (sub_scalar (add_scalar x k) k) = sphere x /\
  (sphere x =? sphere (sub_scalar (add_scalar x k) k)) = true.
Proof.
  unfold exact_shift. intros H.
  assert (length (sub_scalar (add_scalar x k) k) = length x) as Hlen
    by (unfold sub_scalar, add_scalar; rewrite !length_map; reflexivity).
  destruct (eqb_all_abs _ x Hlen H) as [E F].
  assert (sphere (sub_scalar (add_scalar x k) k) = sphere x) as Es.
  { rewrite (sphere_abs (sub_scalar (add_scalar x k) k)), E.
    symmetry. apply sphere_abs. }
  split; [exact Es|]. rewrite Es.
  apply nonneg_class_eqb_refl, sphere_nonneg_class, F.
Qed.

Lemma sphere_negate {K : Kernels} (x : vec) : sphere (negate x) = sphere x.
Proof.
  rewrite (sphere_abs (negate x)), map_abs_negate. symmetry. apply sphere_abs.
Qed.

Lemma all_numbers_Forall (x : vec) :
  all_numbers x = true -> Forall number x.
Proof.
  unfold all_numbers. rewrite forallb_forall, Forall_forall.
  intros H v Hv. apply number_not_nan.
  specialize (H v Hv). destruct (is_nan v); [discriminate|reflexivity].
Qed.

(** *** Differences of numbers *)

Lemma binary_normalize_number (m e : Z) (sz : bool) :
  binary_normalize prec emax m e sz <> S754_nan.
Proof.
  destruct m as [|p|p]; cbn [binary_normalize]; [discriminate| |].
  - destruct (binary_round_signed false p e) as [-> | [-> | (m' & e' & ->)]];
      discriminate.
  - destruct (binary_round_signed true p e) as [-> | [-> | (m' & e' & ->)]];
      discriminate.
Qed.

Lemma finite_number (b : float) : is_finite b = true -> number b.
Proof.
  intros H. unfold number.
  destruct (is_finite_spec b H) as [[s ->]|(s & m & e & ->)]; discriminate.
Qed.

(** A number minus a finite float is a number. *)
Lemma sub_finite_number (p b : float) :
  number p -> is_finite b = true -> number (p - b).
Proof.
  unfold number. intros Hp Hb. rewrite sub_spec.
  destruct (is_finite_spec b Hb) as [[sb ->]|(sb & mb & eb & ->)];
    destruct (Prim2SF p) as [s|s| |s m e]; try congruence;
    unfold SF64sub, SFsub; try discriminate.
  - destruct s, sb; discriminate.
  - apply binary_normalize_number.
Qed.

Section WithLibm.

Context {K : Kernels} {L : Libm}.

(** The product that [hm] forms at a zero coordinate is [nan]. *)
Lemma hm_term_at_zero (v : float) :
  (v =? 0) = true -> v * v * (1.1 + cos (1 / v)) = nan.
Proof.
  intros Hv. destruct (eqb_zero v Hv) as [-> | ->].
  - change (1 / 0) with infinity. rewrite cos_infinity. reflexivity.
  - change (1 / neg_zero) with neg_infinity. rewrite cos_neg_infinity.
    reflexivity.
Qed.

Lemma hm_nan_term (x : vec) :
  has_zero x = true ->
  existsb nan_term (map (fun v => (v * v, 1.1 + cos (1 / v))) x) = true.
Proof.
  induction x as [|v t IH]; intros Hz; [discriminate|].
  cbn [has_zero existsb] in Hz. cbn [map existsb].
  destruct (v =? 0) eqn:Hv.
  - unfold nan_term at 1. cbn [fst snd].
    rewrite (hm_term_at_zero v Hv). reflexivity.
  - rewrite (IH Hz). apply orb_true_r.
Qed.

Lemma hm_has_zero (x : vec) : has_zero x = true -> hm x = nan.
Proof.
  intros Hz. unfold hm. apply dot_nan_term.
  unfold square. rewrite combine_map_map. apply hm_nan_term, Hz.
Qed.

(** The deceptive term is a difference whose first term has the sign bit
    clear: it is never [-0.0]. *)
Lemma deceptive_term_not_neg_zero (v : float) : deceptive_term v <> neg_zero.
Proof.
  unfold deceptive_term. apply FloatMagnitude.sub_not_neg_zero.
  destruct (is_nan v) eqn:Hn.
  - left. rewrite (is_nan_true v Hn). reflexivity.
  - right. apply mul_finite_nonneg_class; [eexists; eexists; reflexivity|].
    apply square_nonneg_class, number_not_nan, Hn.
Qed.

Lemma float_pow_2_opp (v : float) : float_pow_2 (- v) = float_pow_2 v.
Proof.
  unfold float_pow_2.
  rewrite is_nan_opp, is_infinity_opp, abs_opp, eqb_opp_zero.
  destruct (is_nan v) eqn:Hn; [|reflexivity].
  rewrite (is_nan_true v Hn), opp_nan. reflexivity.
Qed.

(** [ellipsoid] on the first and the last vector of the standard basis, in
    dimension [n + 2] with finite weights. *)
Lemma ellipsoid_first_last (n : nat) :
  forallb is_finite (ellipsoid_weights (S (S n))) = true ->
  ellipsoid (1 :: repeat 0 (S n)) = 1 /\
  ellipsoid (repeat 0 (S n) ++ [1]) = 1000000.
Proof.
  intros Hf.
  destruct (ellipsoid_weights_shape n Hf) as (ws & Hw & Hlen & Hfin).
  unfold ellipsoid. split.
  - cbn [length]. rewrite repeat_length, Hw.
    cbn [square map]. fold (square (repeat 0 (S n))). rewrite square_zeros.
    change (1 * 1) with 1.
    rewrite (dot_single_term [] [] 1 1 (ws ++ [1000000]) (repeat 0 (S n)));
      try reflexivity.
    apply zero_terms_finite. rewrite forallb_app, Hfin. reflexivity.
  - rewrite length_app, repeat_length. cbn [length].
    replace (S n + 1)%nat with (S (S n)) by lia. rewrite Hw.
    rewrite square_app, square_zeros. cbn [square map].
    change (1 * 1) with 1.
    change (1 :: ws ++ [1000000]) with ((1 :: ws) ++ [1000000]).
    rewrite (dot_single_term (1 :: ws) (repeat 0 (S n)) 1000000 1 [] []);
      try reflexivity.
    + cbn [length]. rewrite repeat_length, Hlen. reflexivity.
    + apply zero_terms_finite. cbn [forallb]. rewrite Hfin. reflexivity.
Qed.

End WithLibm.

Lemma forallb_finite_Forall (x : vec) :
  forallb is_finite x = true -> Forall (fun v => is_finite v = true) x.
Proof. rewrite forallb_forall, Forall_forall. auto. Qed.

(** The differences formed by [rosenbrock] on finite coordinates are
    numbers. *)
Lemma sub_arrays_square_numbers (a b : vec) :
  Forall (fun v => is_finite v = true) a ->
  Forall (fun v => is_finite v = true) b ->
  Forall number (sub_arrays (square a) b).
Proof.
  unfold sub_arrays, square. revert b.
  induction a as [|u a IH]; intros b Ha Hb; [constructor|].
  destruct b as [|w b]; [constructor|].
  cbn [map combine fst snd]. constructor.
  - apply sub_finite_number; [|exact (Forall_inv Hb)].
    apply nonneg_class_number, square_nonneg_class, finite_number.
    exact (Forall_inv Ha).
  - exact (IH b (Forall_inv_tail Ha) (Forall_inv_tail Hb)).
Qed.

Lemma sub_scalar_one_numbers (a : vec) :
  Forall (fun v => is_finite v = true) a ->
  Forall number (sub_scalar a 1).
Proof.
  unfold sub_scalar. induction a as [|u a IH]; intros Ha; [constructor|].
  cbn [map]. constructor.
  - apply sub_finite_number; [|reflexivity].
    apply finite_number. exact (Forall_inv Ha).
  - exact (IH (Forall_inv_tail Ha)).
Qed.

Lemma cumsum_from_zeros (k : nat) :
  cumsum_from 0 (repeat 0 k) = repeat 0 k.
Proof.
  induction k as [|k IH]; [reflexivity|].
  cbn [repeat cumsum_from]. change (0 + 0) with 0. rewrite IH. reflexivity.
Qed.

Lemma sub_scalar_repeat (c : float) (d : nat) :
  sub_scalar (repeat c d) c = repeat (c - c) d.
Proof. unfold sub_scalar. rewrite map_repeat. reflexivity. Qed.

(** [np.max] returns one of the elements. *)
Lemma fold_maximum_In (t : vec) (v : float) :
  In (fold_left maximum t v) (v :: t).
Proof.
  revert v. induction t as [|w t IH]; intros v; [left; reflexivity|].
  cbn [fold_left]. specialize (IH (maximum v w)).
  destruct IH as [E|Hin].
  - unfold maximum in E at 1.
    destruct ((w <=? v) || is_nan v); [left|right; left]; exact E.
  - right; right. exact Hin.
Qed.

End CorefuncsMoreFacts.
(** * The schedule matters

    On 16 coordinates the blocked dot product and the plain loop give
    different spheres, and on 8 coordinates the pairwise sum and the plain
    loop give different sums: the theorems below hold for every schedule,
    the values of the functions on long vectors do not. *)

Module ScheduleExamples.

Import Numpy Corefuncs RefKernelsFacts.
Open Scope float_scope.

Lemma sphere_depends_on_schedule :
  @sphere blocked_kernels (1e8 :: repeat 1 15) = 10000000000000014 /\
  @sphere ref_kernels (1e8 :: repeat 1 15) = 10000000000000000.
Proof. split; vm_compute; reflexivity. Qed.

Lemma sum_depends_on_schedule :
  @DelayedSphere_call blocked_kernels (1e8 :: repeat 1 7) = 10000000000000006 /\
  @DelayedSphere_call ref_kernels (1e8 :: repeat 1 7) = 10000000000000000.
Proof. split; vm_compute; reflexivity. Qed.

End ScheduleExamples.

(** * The claims of the specification *)

Import Discrete DiscreteFacts Numpy Corefuncs CorefuncsMore.
Import NumpyFacts KernelFacts CorefuncsFacts CorefuncsMoreFacts.
Import RefLibmFacts RefKernelsFacts.
Open Scope float_scope.

(** C1: [hm] is registered, a vector of length 1 is valid for it, and at
    the vector [0.0] (and at [-0.0]) the registered callable returns [nan]:
    [1.0 / x] is infinite there, the cosine of an infinity is [nan], and
    [nan] survives the dot product. *)
Theorem hm_at_zero_is_nan (K : Kernels) (L : Libm) :
  (exists r, Registry.registry = Ok r /\
             Registry.get r "hm" = Ok (Registry.mkEntry "hm" false)) /\
  (exists f, callable "hm" = Some f /\
             f [0] = Ok nan /\ f [neg_zero] = Ok nan) /\
  is_nan (hm [0]) = true.
Proof.
  assert (hm [0] = nan) as H by (apply hm_has_zero; reflexivity).
  assert (hm [neg_zero] = nan) as H' by (apply hm_has_zero; reflexivity).
  split; [|split].
  - destruct Registry.registry as [r|e] eqn:Hr; [|vm_compute in Hr; discriminate].
    exists r. split; [reflexivity|].
    vm_compute in Hr. injection Hr as <-. reflexivity.
  - eexists. split; [reflexivity|]. cbv beta. rewrite H, H'. split; reflexivity.
  - rewrite H. reflexivity.
Qed.

(** C2 (as stated): the third reference value does not hold; on [1,0,0,0]
    the loop stops at index 1 and returns [len(x) - 1], which is 3, not 1. *)
Lemma leadingones_1000_is_not_1 :
  _leadingones int_round_int [1; 0; 0; 0]%Z = 3%Z /\
  _leadingones int_round_int [1; 0; 0; 0]%Z <> 1%Z.
Proof. split; [reflexivity|discriminate]. Qed.

(** C2 (amended): the core [_leadingones] returns the length minus the number
    of initial ones: [0,1,1,1] gives 4, [1,1,1,1] gives 0 and [1,0,0,0]
    gives 3. *)
Theorem leadingones_reference_values :
  _leadingones int_round_int [0; 1; 1; 1]%Z = 4%Z /\
  _leadingones int_round_int [1; 1; 1; 1]%Z = 0%Z /\
  _leadingones int_round_int [1; 0; 0; 0]%Z = 3%Z.
Proof. repeat split; reflexivity. Qed.

(** C3 (as stated): at the zero vector [deceptiveillcond] does not return
    0; its guard on [x[0] != 0.0] sends it to [float("inf")]. *)
Lemma deceptiveillcond_origin_is_inf :
  @deceptiveillcond ref_libm [0; 0] = Ok infinity /\
  py_eq (@deceptiveillcond ref_libm [0; 0]) (Ok 0) = false.
Proof. split; reflexivity. Qed.

(** C3 (amended): at the zero vector [0,0], [deceptivepath] and
    [deceptivemultimodal] return 0, and [deceptiveillcond] returns
    +infinity. *)
Theorem deceptive_at_origin (L : Libm) :
  deceptivepath [0; 0] = Ok 0 /\
  deceptivemultimodal [0; 0] = Ok 0 /\
  deceptiveillcond [0; 0] = Ok infinity.
Proof.
  unfold deceptivepath, deceptivemultimodal, deceptiveillcond.
  cbn [length Nat.ltb Nat.leb]. rewrite getitem_0, getitem_1.
  cbn [bind]. rewrite pow_zero_base_two.
  repeat split; reflexivity.
Qed.

(** C4: for every vector of length at least 2 whose first coordinate
    compares equal to zero, [deceptiveillcond] returns +infinity, whatever
    the second coordinate. *)
Theorem deceptiveillcond_inf_on_zero_axis (L : Libm) (x : vec) (x0 : float) :
  (2 <= length x)%nat ->
  getitem x 0 = Ok x0 ->
  (x0 =? 0) = true ->
  deceptiveillcond x = Ok infinity.
Proof.
  intros Hlen Hx0 Hz. unfold deceptiveillcond.
  destruct (Nat.ltb_spec (length x) 2) as [?|_]; [lia|].
  rewrite Hx0. cbn [bind]. unfold neb. rewrite Hz. reflexivity.
Qed.

(** The vector [0, 3] meets the hypotheses of C4. *)
Lemma deceptiveillcond_inf_on_zero_axis_witness :
  (2 <= length [0; 3])%nat /\
  getitem [0; 3] 0 = Ok 0 /\
  (0 =? 0) = true /\
  @deceptiveillcond ref_libm [0; 3] = Ok infinity.
Proof.
  assert (2 <= length [0; 3])%nat as Hlen by (cbn; lia).
  assert (getitem [0; 3] 0 = Ok 0) as Hx0 by reflexivity.
  assert ((0 =? 0) = true) as Hz by reflexivity.
  split; [exact Hlen|]. split; [exact Hx0|]. split; [exact Hz|].
  exact (deceptiveillcond_inf_on_zero_axis ref_libm [0; 3] 0 Hlen Hx0 Hz).
Defined.

(** C5 (as stated): on [1, 0] the code returns 1, while scaling the first
    axis by 10^6 and adding the sphere of the rest gives 10^6; the same on
    [0, 1] for [altcigar]. *)
Lemma cigar_scales_the_rest :
  @cigar ref_kernels ref_libm [1; 0] = Ok 1 /\
  @spec_cigar ref_kernels ref_libm [1; 0] = Ok 1000000 /\
  py_eq (@cigar ref_kernels ref_libm [1; 0])
        (@spec_cigar ref_kernels ref_libm [1; 0]) = false /\
  @altcigar ref_kernels ref_libm [0; 1] = Ok 1 /\
  @spec_altcigar ref_kernels ref_libm [0; 1] = Ok 1000000.
Proof. repeat split; reflexivity. Qed.

(** C5 (amended): for every vector x of length at least 2, [cigar(x)] is
    the square of the first coordinate plus 10^6 times the sphere of the
    remaining coordinates, and [altcigar(x)] is the square of the last
    coordinate plus 10^6 times the sphere of the coordinates before it; the
    square is the interpreter's [float(v) ** 2] and the sphere is the
    function [sphere] of the catalogue. *)
Theorem cigar_altcigar_formula (K : Kernels) (L : Libm) (x : vec) :
  (2 <= length x)%nat ->
  cigar x =
    (sq <- float_pow_2 (hd 0 x) ;; Ok (sq + 1000000 * sphere (tl x))) /\
  altcigar x =
    (sq <- float_pow_2 (last x 0) ;;
     Ok (sq + 1000000 * sphere (removelast x))).
Proof.
  intros Hlen. unfold cigar, altcigar.
  destruct x as [|a t]; [cbn in Hlen; lia|].
  rewrite getitem_0, getitem_neg_one by discriminate.
  split; reflexivity.
Qed.

(** The vector [3, 1, 2] meets the hypothesis of C5: 9 + 10^6 * 5 and
    4 + 10^6 * 10. *)
Lemma cigar_altcigar_formula_witness :
  (2 <= length [3; 1; 2])%nat /\
  @cigar ref_kernels ref_libm [3; 1; 2] = Ok 5000009 /\
  @altcigar ref_kernels ref_libm [3; 1; 2] = Ok 10000004.
Proof.
  assert (2 <= length [3; 1; 2])%nat as Hlen by (cbn; lia).
  split; [exact Hlen|].
  destruct (cigar_altcigar_formula ref_kernels ref_libm [3; 1; 2] Hlen)
    as [Hc Ha].
  split; [rewrite Hc|rewrite Ha]; reflexivity.
Defined.

(** C6 (as stated): on [0] the core returns 1, while the length minus the
    number of coordinates different from 1 is 0. *)
Lemma onemax_is_not_length_minus_non_ones :
  _onemax int_round_int [0]%Z = 1%Z /\
  spec_onemax int_round_int [0]%Z = 0%Z /\
  _onemax int_round_int [0]%Z <> spec_onemax int_round_int [0]%Z.
Proof. split; [reflexivity|]. split; [reflexivity|discriminate]. Qed.

(** C6 (amended): for every vector x, the core [_onemax] returns the length
    of x minus the number of coordinates equal to 1, which is the number of
    coordinates not equal to 1 (each coordinate compared to 1 after
    [int(round(.))]). *)
Theorem onemax_counts_non_ones {A : Type} (int_round : A -> Z) (x : list A) :
  _onemax int_round x =
    (Z.of_nat (length x)
     - Z.of_nat (length (filter (fun w => int_round w =? 1) x)))%Z /\
  _onemax int_round x =
    Z.of_nat (length (filter (fun w => negb (int_round w =? 1)) x))%Z.
Proof.
  unfold _onemax, len. rewrite (ones_filter int_round x). split; [reflexivity|].
  pose proof (filter_length (fun w => int_round w =? 1)%Z x) as H.
  lia.
Qed.

(** C7 (as stated): the delay is not always a non-negative real.  At the
    least positive float, [5e-324], the quotient [1/x[0]] overflows and the
    delay is +infinity; at [nan] the delay is [nan], which is not above or
    equal to zero. *)
Lemma delay_is_not_always_real :
  get_postponing_delay [[0x1p-1074; 0]] []
    (@DelayedSphere_call ref_kernels [0x1p-1074; 0]) = Ok infinity /\
  is_finite 0x1p-1074 = true /\
  is_finite infinity = false /\
  get_postponing_delay [[nan; 0]] []
    (@DelayedSphere_call ref_kernels [nan; 0]) = Ok nan /\
  (0 <=? nan) = false.
Proof. repeat split; reflexivity. Qed.

(** C7 (amended): called with the arguments of an evaluation at a vector
    with first coordinate [x0], [get_postponing_delay] returns
    [|1/x0|/1000] when [x0 != 0] and [0] when [x0 == 0]; when [x0] is not
    [nan] the delay is not below zero, and it is +infinity when [1/x0]
    overflows, as at [5e-324]; when [x0] is [nan] the delay is [nan]; at
    [0.001, 0] it is 1.0 and at [0, 0] it is 0. *)
Theorem delayed_sphere_delay
    (K : Kernels) (x0 : float) (xs : vec) (rest : list vec)
    (kwargs : list (string * vec)) (value : float) :
  get_postponing_delay ((x0 :: xs) :: rest) kwargs value = Ok (spec_delay x0) /\
  (is_nan x0 = false -> (0 <=? spec_delay x0) = true) /\
  get_postponing_delay ((nan :: xs) :: rest) kwargs value = Ok nan /\
  get_postponing_delay ((0x1p-1074 :: xs) :: rest) kwargs value
  = Ok infinity /\
  get_postponing_delay [[0.001; 0]] [] (DelayedSphere_call [0.001; 0]) = Ok 1 /\
  get_postponing_delay [[0; 0]] [] (DelayedSphere_call [0; 0]) = Ok 0.
Proof.
  split; [|split; [|split; [|split; [|split; reflexivity]]]].
  - unfold get_postponing_delay, spec_delay. rewrite getitem_0. cbn [bind].
    destruct (neb x0 0); reflexivity.
  - intros Hnan. unfold spec_delay, neb.
    destruct (x0 =? 0) eqn:Hz; cbn [negb].
    + reflexivity.
    + apply FloatFacts.delay_nonneg; assumption.
  - unfold get_postponing_delay. rewrite getitem_0. reflexivity.
  - unfold get_postponing_delay. rewrite getitem_0. reflexivity.
Qed.

(** The vector [0.25, 7] has a number as first coordinate: the delay is
    4 / 1000. *)
Lemma delayed_sphere_delay_witness :
  is_nan 0.25 = false /\
  get_postponing_delay [[0.25; 7]] [] (@DelayedSphere_call ref_kernels [0.25; 7])
  = Ok 0.004 /\
  (0 <=? 0.004) = true.
Proof.
  assert (is_nan 0.25 = false) as Hnan by reflexivity.
  split; [exact Hnan|].
  destruct (delayed_sphere_delay ref_kernels 0.25 [7] [] []
              (@DelayedSphere_call ref_kernels [0.25; 7]))
    as (Hd & Hpos & _).
  split; [exact Hd|exact (Hpos Hnan)].
Defined.

(** C8 (as stated): binary64 rounding breaks the equality.  For
    [x = [0.1]], [x + 1 - 1] is [0.10000000000000009], so [sphere1(x+1)]
    is not [sphere(x)]. *)
Lemma sphere_shift_rounds :
  @sphere ref_kernels [0.1] = 0.010000000000000002 /\
  @sphere1 ref_kernels (add_scalar [0.1] 1) = 0.010000000000000018 /\
  (@sphere ref_kernels [0.1] =? @sphere1 ref_kernels (add_scalar [0.1] 1))
  = false.
Proof. repeat split; reflexivity. Qed.

(** C8 (amended): the sphere of the zero vector of any dimension is 0, and
    for every vector x and each shift k among 1, 2 and 4 that is exact on x
    in binary64 ([(x + k) - k == x] on every coordinate), the translated
    variant at x + k is [sphere(x)] and compares equal to it; when the
    three shifts are exact, [sphere(x)], [sphere1(x+1)], [sphere2(x+2)] and
    [sphere4(x+4)] are the same value. *)
Theorem sphere_translates (K : Kernels) (d : nat) (x : vec) :
  sphere (zeros d) = 0 /\
  (exact_shift 1 x = true ->
   sphere1 (add_scalar x 1) = sphere x /\
   (sphere x =? sphere1 (add_scalar x 1)) = true) /\
  (exact_shift 2 x = true ->
   sphere2 (add_scalar x 2) = sphere x /\
   (sphere x =? sphere2 (add_scalar x 2)) = true) /\
  (exact_shift 4 x = true ->
   sphere4 (add_scalar x 4) = sphere x /\
   (sphere x =? sphere4 (add_scalar x 4)) = true).
Proof.
  unfold sphere1, sphere2, sphere4.
  split; [apply sphere_zeros|].
  split; [|split]; intros H; exact (sphere_shift_exact _ x H).
Qed.

(** The vector [1, 2.5, -3, -0.0] shifts exactly by 1, 2 and 4: on its last
    coordinate the shift gives [0.0], which compares equal to [-0.0]. *)
Lemma sphere_translates_witness :
  exact_shift 1 [1; 2.5; -3; neg_zero] = true /\
  exact_shift 2 [1; 2.5; -3; neg_zero] = true /\
  exact_shift 4 [1; 2.5; -3; neg_zero] = true /\
  @sphere ref_kernels (zeros 3) = 0 /\
  @sphere1 ref_kernels (add_scalar [1; 2.5; -3; neg_zero] 1)
  = @sphere ref_kernels [1; 2.5; -3; neg_zero] /\
  @sphere2 ref_kernels (add_scalar [1; 2.5; -3; neg_zero] 2)
  = @sphere ref_kernels [1; 2.5; -3; neg_zero] /\
  @sphere4 ref_kernels (add_scalar [1; 2.5; -3; neg_zero] 4)
  = @sphere ref_kernels [1; 2.5; -3; neg_zero].
Proof.
  assert (exact_shift 1 [1; 2.5; -3; neg_zero] = true) as H1 by reflexivity.
  assert (exact_shift 2 [1; 2.5; -3; neg_zero] = true) as H2 by reflexivity.
  assert (exact_shift 4 [1; 2.5; -3; neg_zero] = true) as H4 by reflexivity.
  split; [exact H1|]. split; [exact H2|]. split; [exact H4|].
  destruct (sphere_translates ref_kernels 3 [1; 2.5; -3; neg_zero])
    as (Hz & S1 & S2 & S4).
  split; [exact Hz|]. split; [exact (proj1 (S1 H1))|].
  split; [exact (proj1 (S2 H2))|exact (proj1 (S4 H4))].
Defined.

(** C9: in every dimension d >= 2 that is the size of an array,
    [ellipsoid] returns 1 on the first vector of the standard basis and
    10^6 on the last: the weights [10 ** np.linspace(0, 6, d)] are finite,
    the first is 1 and the last is 10^6, and the zero coordinates
    contribute zeros. *)
Theorem ellipsoid_basis_vectors (K : Kernels) (L : Libm) (d : nat) :
  (2 <= d)%nat ->
  (Z.of_nat d <= npy_intp_max)%Z ->
  ellipsoid (basis_first d) = 1 /\
  ellipsoid (basis_last d) = 1000000.
Proof.
  intros Hd Hs. pose proof (ellipsoid_weights_finite d Hs) as Hf.
  destruct d as [|[|n]]; [lia|lia|].
  unfold basis_first, basis_last.
  replace (S (S n) - 1)%nat with (S n) by lia.
  exact (ellipsoid_first_last n Hf).
Qed.

(** Dimension 5 with the reference libraries. *)
Lemma ellipsoid_basis_vectors_witness :
  (2 <= 5)%nat /\
  (Z.of_nat 5 <= npy_intp_max)%Z /\
  @ellipsoid ref_kernels ref_libm [1; 0; 0; 0; 0] = 1 /\
  @ellipsoid ref_kernels ref_libm [0; 0; 0; 0; 1] = 1000000.
Proof.
  assert (2 <= 5)%nat as Hd by lia.
  assert (Z.of_nat 5 <= npy_intp_max)%Z as Hs by (unfold npy_intp_max; lia).
  split; [exact Hd|]. split; [exact Hs|].
  exact (ellipsoid_basis_vectors ref_kernels ref_libm 5 Hd Hs).
Defined.

(** C10: [ackley] and [schwefel_1_2] are defined in the catalogue but no
    registration is applied to them: importing the module succeeds, the
    registry's names contain neither and looking either up fails with
    [NotFound]. *)
Theorem ackley_schwefel_not_registered :
  Registry.defined "ackley" = true /\
  Registry.defined "schwefel_1_2" = true /\
  exists r,
    Registry.registry = Ok r /\
    ~ In "ackley"%string (Registry.names r) /\
    ~ In "schwefel_1_2"%string (Registry.names r) /\
    Registry.get r "ackley" = Raise NotFound /\
    Registry.get r "schwefel_1_2" = Raise NotFound.
Proof.
  split; [reflexivity|]. split; [reflexivity|].
  destruct Registry.registry as [r|e] eqn:Hr; [|vm_compute in Hr; discriminate].
  exists r. split; [reflexivity|].
  assert (Registry.mem "ackley" r = true -> False) as Ha.
  { intros H. vm_compute in Hr. injection Hr as <-. vm_compute in H. discriminate. }
  assert (Registry.mem "schwefel_1_2" r = true -> False) as Hs.
  { intros H. vm_compute in Hr. injection Hr as <-. vm_compute in H. discriminate. }
  destruct (Registry.mem "ackley" r) eqn:Ea; [exfalso; auto|].
  destruct (Registry.mem "schwefel_1_2" r) eqn:Es; [exfalso; auto|].
  repeat split;
    auto using RegistryFacts.mem_false_not_In, RegistryFacts.mem_false_get.
Qed.


(** * Further properties of the catalogue *)

Import DiscreteMore FloatClasses FloatSigns FloatArith.

(** X1: [_leadingones] splits its argument at the end of the longest prefix
    of ones and returns the length of the remainder. *)
Theorem leadingones_longest_prefix {A : Type} (int_round : A -> Z) (x : list A) :
  exists p r,
    x = p ++ r /\
    Forall (fun w => int_round w = 1%Z) p /\
    match r with [] => True | w :: _ => int_round w <> 1%Z end /\
    _leadingones int_round x = Z.of_nat (length r).
Proof. apply leadingones_loop_split. lia. Qed.

(** X2: on every list the two cores are ordered and bounded:
    [0 <= _onemax(x) <= _leadingones(x) <= len(x)]. *)
Theorem onemax_below_leadingones {A : Type} (int_round : A -> Z) (x : list A) :
  (0 <= _onemax int_round x <= _leadingones int_round x)%Z /\
  (_leadingones int_round x <= Z.of_nat (length x))%Z.
Proof.
  rewrite leadingones_law. unfold _onemax.
  pose proof (leading_bounds int_round x).
  pose proof (ones_bounds int_round x).
  unfold len in *. lia.
Qed.

(** X3: [_onemax] and [_leadingones] return 0 exactly on the lists whose
    coordinates all round to 1. *)
Theorem cores_vanish_on_all_ones {A : Type} (int_round : A -> Z) (x : list A) :
  (_onemax int_round x = 0%Z <-> Forall (fun w => int_round w = 1%Z) x) /\
  (_leadingones int_round x = 0%Z <-> Forall (fun w => int_round w = 1%Z) x).
Proof.
  rewrite leadingones_law. unfold _onemax.
  pose proof (ones_full int_round x) as Ho.
  pose proof (leading_full int_round x) as Hl.
  split; split; intros H.
  - apply Ho. lia.
  - apply Ho in H. lia.
  - apply Hl. lia.
  - apply Hl in H. lia.
Qed.

(** X4: [_jump] is never below [-(len(x) // 4)], and takes that value
    exactly on the lists whose coordinates all round to 1. *)
Theorem jump_minimum {A : Type} (int_round : A -> Z) (x : list A) :
  (- (Z.of_nat (length x) / 4) <= _jump int_round x)%Z /\
  (_jump int_round x = (- (Z.of_nat (length x) / 4))%Z
   <-> Forall (fun w => int_round w = 1%Z) x).
Proof.
  rewrite <- (ones_full int_round x). unfold _jump, _onemax.
  pose proof (ones_bounds int_round x) as Hb. unfold len in *.
  set (n := Z.of_nat (length x)) in *. set (o := ones int_round x) in *.
  replace (n - (n - o))%Z with o by lia.
  assert (0 <= n / 4 <= n)%Z as Hm.
  { split; [apply Z.div_pos; lia|apply Z.div_le_upper_bound; lia]. }
  destruct (Z.eqb_spec o n) as [E|E]; cbn [orb].
  - split; [lia|]. split; lia.
  - destruct (Z.leb_spec o (n - n / 4)) as [E'|E']; split; try lia; split; lia.
Qed.

(** X5: on a list of fewer than 4 coordinates the jump width is 0 and
    [_jump] coincides with [_onemax]. *)
Theorem jump_is_onemax_below_four {A : Type} (int_round : A -> Z) (x : list A) :
  (length x < 4)%nat ->
  _jump int_round x = _onemax int_round x.
Proof.
  intros Hlen. unfold _jump, _onemax.
  pose proof (ones_bounds int_round x) as Hb. unfold len in *.
  set (n := Z.of_nat (length x)) in *. set (o := ones int_round x) in *.
  assert (n / 4 = 0)%Z as -> by (apply Z.div_small; lia).
  replace (n - (n - o))%Z with o by lia.
  destruct (Z.eqb_spec o n); cbn [orb]; [lia|].
  destruct (Z.leb_spec o (n - 0)); lia.
Qed.

(** The list [1, 0, 1] has fewer than 4 coordinates: both cores give 1. *)
Lemma jump_is_onemax_below_four_witness :
  (length [1; 0; 1]%Z < 4)%nat /\
  _jump int_round_int [1; 0; 1]%Z = 1%Z /\
  _onemax int_round_int [1; 0; 1]%Z = 1%Z.
Proof.
  assert (length [1; 0; 1]%Z < 4)%nat as Hlen by (cbn; lia).
  split; [exact Hlen|]. split; [|reflexivity].
  rewrite (jump_is_onemax_below_four int_round_int [1; 0; 1]%Z Hlen).
  reflexivity.
Defined.

Import CorefuncsMoreFacts.

(** X6: [hm] returns [nan] on every vector that has a coordinate equal to
    zero, wherever it stands and whatever the other coordinates are. *)
Theorem hm_nan_on_zero_coordinate (K : Kernels) (L : Libm) (x : vec) :
  has_zero x = true -> hm x = nan.
Proof. exact (hm_has_zero x). Qed.

(** The vector [1, 0, 2] has a zero coordinate. *)
Lemma hm_nan_on_zero_coordinate_witness :
  has_zero [1; 0; 2] = true /\ @hm ref_kernels ref_libm [1; 0; 2] = nan.
Proof.
  assert (has_zero [1; 0; 2] = true) as Hz by reflexivity.
  split; [exact Hz|].
  exact (hm_nan_on_zero_coordinate ref_kernels ref_libm [1; 0; 2] Hz).
Defined.

(** X7: on a vector of fewer than 2 coordinates, [deceptiveillcond],
    [deceptivepath] and [deceptivemultimodal] fail their assertion. *)
Theorem deceptive_reject_short (L : Libm) (x : vec) :
  (length x < 2)%nat ->
  deceptiveillcond x = Raise AssertionError /\
  deceptivepath x = Raise AssertionError /\
  deceptivemultimodal x = Raise AssertionError.
Proof.
  intros Hlen. unfold deceptiveillcond, deceptivepath, deceptivemultimodal.
  destruct (Nat.ltb_spec (length x) 2) as [_|?]; [|lia].
  repeat split; reflexivity.
Qed.

(** The one-element vector [5] is too short. *)
Lemma deceptive_reject_short_witness :
  (length [5] < 2)%nat /\
  @deceptiveillcond ref_libm [5] = Raise AssertionError /\
  @deceptivepath ref_libm [5] = Raise AssertionError /\
  @deceptivemultimodal ref_libm [5] = Raise AssertionError.
Proof.
  assert (length [5] < 2)%nat as Hlen by (cbn; lia).
  split; [exact Hlen|].
  exact (deceptive_reject_short ref_libm [5] Hlen).
Defined.

(** X8: the three deceptive functions read only the first two coordinates:
    dropping every further coordinate changes nothing; and on a vector of
    at least 2 coordinates [deceptiveillcond] and [deceptivepath] always
    return a value. *)
Theorem deceptive_two_coordinates (L : Libm) (x0 x1 : float) (rest : vec) :
  deceptiveillcond (x0 :: x1 :: rest) = deceptiveillcond [x0; x1] /\
  deceptivepath (x0 :: x1 :: rest) = deceptivepath [x0; x1] /\
  deceptivemultimodal (x0 :: x1 :: rest) = deceptivemultimodal [x0; x1] /\
  (exists r, deceptiveillcond (x0 :: x1 :: rest) = Ok r) /\
  (exists r, deceptivepath (x0 :: x1 :: rest) = Ok r).
Proof.
  unfold deceptiveillcond, deceptivepath, deceptivemultimodal.
  cbn [length Nat.ltb Nat.leb]. rewrite !getitem_0, !getitem_1. cbn [bind].
  split; [reflexivity|]. split; [reflexivity|]. split; [reflexivity|].
  split.
  - destruct (neb x0 0); eexists; reflexivity.
  - destruct (sqrt (pow x0 2 + pow x1 2) =? 0); [eexists; reflexivity|].
    destruct (0.1 <? _); eexists; reflexivity.
Qed.

(** X9: [sphere] is even: on a vector without [nan] coordinate, negating
    every coordinate leaves the value unchanged, and the two values compare
    equal. *)
Theorem sphere_even (K : Kernels) (x : vec) :
  all_numbers x = true ->
  sphere (negate x) = sphere x /\
  (sphere (negate x) =? sphere x) = true.
Proof.
  intros Hx. rewrite sphere_negate. split; [reflexivity|].
  apply nonneg_class_eqb_refl, sphere_nonneg_class, all_numbers_Forall, Hx.
Qed.

(** The vector [-3, 0.5, 2] has no [nan]: both spheres are 13.25. *)
Lemma sphere_even_witness :
  all_numbers [-3; 0.5; 2] = true /\
  @sphere ref_kernels (negate [-3; 0.5; 2]) = 13.25 /\
  @sphere ref_kernels [-3; 0.5; 2] = 13.25 /\
  (@sphere ref_kernels (negate [-3; 0.5; 2]) =? @sphere ref_kernels [-3; 0.5; 2])
  = true.
Proof.
  assert (all_numbers [-3; 0.5; 2] = true) as Hx by reflexivity.
  split; [exact Hx|].
  destruct (sphere_even ref_kernels [-3; 0.5; 2] Hx) as [E Hq].
  split; [rewrite E; reflexivity|]. split; [reflexivity|exact Hq].
Defined.

(** X10: on a vector without [nan] coordinate, [sphere] returns a value
    that is not below zero (so it is not [nan] either). *)
Theorem sphere_nonneg (K : Kernels) (x : vec) :
  all_numbers x = true -> (0 <=? sphere x) = true.
Proof.
  intros Hx. apply nonneg_class_leb, sphere_nonneg_class, all_numbers_Forall, Hx.
Qed.

(** The vector [-3, 0.5, 1e200] has no [nan]; its sphere overflows to
    +infinity. *)
Lemma sphere_nonneg_witness :
  all_numbers [-3; 0.5; 1e200] = true /\
  @sphere ref_kernels [-3; 0.5; 1e200] = infinity /\
  (0 <=? @sphere ref_kernels [-3; 0.5; 1e200]) = true.
Proof.
  assert (all_numbers [-3; 0.5; 1e200] = true) as Hx by reflexivity.
  split; [exact Hx|]. split; [reflexivity|].
  exact (sphere_nonneg ref_kernels [-3; 0.5; 1e200] Hx).
Defined.

(** X11: [get_postponing_delay] raises exactly when there is no first
    argument or the first argument is empty, and then the error is
    [IndexError]; on any other input it returns a delay. *)
Theorem delay_raises_on_empty
    (args : list vec) (kwargs : list (string * vec)) (value : float) :
  (get_postponing_delay args kwargs value = Raise IndexError
   <-> args = [] \/ exists rest, args = [] :: rest) /\
  (forall e, get_postponing_delay args kwargs value = Raise e -> e = IndexError) /\
  (forall x0 xs rest, args = (x0 :: xs) :: rest ->
     exists d, get_postponing_delay args kwargs value = Ok d).
Proof.
  unfold vec in *. destruct args as [|[|x0 xs] rest].
  - split; [split; [intros _; left; reflexivity|reflexivity]|].
    split; [intros e H; cbn in H; congruence|intros; discriminate].
  - split; [split; [intros _; right; eexists; reflexivity|reflexivity]|].
    split; [intros e H; cbn in H; congruence|intros; discriminate].
  - assert (get_postponing_delay ((x0 :: xs) :: rest) kwargs value
            = Ok (spec_delay x0)) as H.
    { unfold get_postponing_delay, spec_delay. rewrite getitem_0. cbn [bind].
      destruct (neb x0 0); reflexivity. }
    rewrite H. split; [split|split].
    + discriminate.
    + intros [E|[r E]]; discriminate.
    + intros e E. discriminate.
    + intros. eexists. reflexivity.
Qed.

(** X12: the delay depends only on the magnitude of [x[0]]: negating the
    first coordinate, and changing every other input of the call, leaves
    it unchanged. *)
Theorem delay_even
    (x0 : float) (xs xs' : vec) (rest rest' : list vec)
    (kwargs kwargs' : list (string * vec)) (value value' : float) :
  get_postponing_delay ((- x0 :: xs) :: rest) kwargs value
  = get_postponing_delay ((x0 :: xs') :: rest') kwargs' value'.
Proof.
  unfold get_postponing_delay. rewrite !getitem_0. cbn [bind].
  unfold neb. rewrite eqb_opp_zero, abs_div_opp. reflexivity.
Qed.

(** X13: [cigar] and [altcigar] raise [IndexError] exactly on the empty
    vector; the only other error they raise is the [OverflowError] of the
    square of the distinguished coordinate. *)
Theorem cigar_errors (K : Kernels) (L : Libm) (x : vec) (e : exn) :
  (cigar x = Raise IndexError <-> x = []) /\
  (altcigar x = Raise IndexError <-> x = []) /\
  (cigar x = Raise e -> e = IndexError \/ e = OverflowError) /\
  (altcigar x = Raise e -> e = IndexError \/ e = OverflowError).
Proof.
  assert (forall v (k : float -> float), (sq <- float_pow_2 v ;; Ok (k sq)) = Raise e ->
                      e = OverflowError) as Hpow.
  { intros v k. unfold float_pow_2.
    destruct (is_nan v); [discriminate|].
    destruct (is_infinity v); [discriminate|].
    destruct (v =? 0); [discriminate|].
    destruct (abs v =? 1); [discriminate|].
    destruct (is_infinity (pow (abs v) 2)); cbn [bind]; congruence. }
  assert (forall v (k : float -> float), (sq <- float_pow_2 v ;; Ok (k sq)) <> Raise IndexError)
    as Hidx.
  { intros v k. unfold float_pow_2.
    destruct (is_nan v); [discriminate|].
    destruct (is_infinity v); [discriminate|].
    destruct (v =? 0); [discriminate|].
    destruct (abs v =? 1); [discriminate|].
    destruct (is_infinity (pow (abs v) 2)); cbn [bind]; congruence. }
  unfold cigar, altcigar. destruct x as [|a t].
  - cbn. repeat split; intros; try reflexivity; left; congruence.
  - rewrite getitem_0, getitem_neg_one by discriminate. cbn [bind].
    repeat split; try discriminate; intros H.
    + exfalso. exact (Hidx _ (fun sq => sq + 1000000 * sphere (tl (a :: t))) H).
    + exfalso.
      exact (Hidx _ (fun sq => sq + 1000000 * sphere (removelast (a :: t))) H).
    + right. exact (Hpow _ (fun sq => sq + 1000000 * sphere (tl (a :: t))) H).
    + right.
      exact (Hpow _ (fun sq => sq + 1000000 * sphere (removelast (a :: t))) H).
Qed.

(** X14: [cigar] is even in its first coordinate and [altcigar] in its
    last: negating the distinguished coordinate changes neither the value
    nor the error. *)
Theorem cigar_even (K : Kernels) (L : Libm) (v : float) (t : vec) :
  cigar (- v :: t) = cigar (v :: t) /\
  altcigar (t ++ [- v]) = altcigar (t ++ [v]).
Proof.
  unfold cigar, altcigar. split.
  - rewrite !getitem_0. cbn [bind tl]. rewrite float_pow_2_opp. reflexivity.
  - rewrite !getitem_neg_one by (destruct t; discriminate).
    rewrite !last_last, !removelast_last. cbn [bind].
    rewrite float_pow_2_opp. reflexivity.
Qed.

(** X15: [rosenbrock] is 0 at the vector of ones of every dimension. *)
Theorem rosenbrock_at_ones (K : Kernels) (d : nat) :
  rosenbrock (repeat 1 d) = 0.
Proof.
  assert (forall k, dot (repeat 0 k) (repeat 0 k) = 0) as Hz
    by (intros k; exact (sphere_zeros k)).
  unfold rosenbrock, sub_arrays, square.
  destruct d as [|k].
  - change (100 * dot [] [] + dot [] [] = 0).
    rewrite (Hz 0%nat : dot [] [] = 0). reflexivity.
  - rewrite removelast_repeat. change (tl (repeat 1 (S k))) with (repeat 1 k).
    rewrite sub_scalar_repeat, map_repeat, combine_repeat, map_repeat.
    cbn [fst snd]. change (1 * 1 - 1) with 0. change (1 - 1) with 0.
    rewrite Hz. reflexivity.
Qed.

(** X16: on a vector of at most one coordinate both slices of [rosenbrock]
    are empty and the function is 0, whatever the coordinate. *)
Theorem rosenbrock_short (K : Kernels) (x : vec) :
  (length x <= 1)%nat -> rosenbrock x = 0.
Proof.
  intros Hlen.
  assert (rosenbrock x = 100 * dot [] [] + dot [] []) as ->.
  { destruct x as [|v [|w t]]; [reflexivity|reflexivity|].
    cbn in Hlen. lia. }
  rewrite (sphere_zeros 0 : dot [] [] = 0). reflexivity.
Qed.

(** The one-element vector [7] is short. *)
Lemma rosenbrock_short_witness :
  (length [7] <= 1)%nat /\ @rosenbrock ref_kernels [7] = 0.
Proof.
  assert (length [7] <= 1)%nat as Hlen by (cbn; lia).
  split; [exact Hlen|exact (rosenbrock_short ref_kernels [7] Hlen)].
Defined.

(** X17: on a vector of finite coordinates [rosenbrock] returns a value
    that is not below zero (so it is not [nan] either). *)
Theorem rosenbrock_nonneg (K : Kernels) (x : vec) :
  forallb is_finite x = true -> (0 <=? rosenbrock x) = true.
Proof.
  intros Hx. apply forallb_finite_Forall in Hx.
  apply nonneg_class_leb. unfold rosenbrock.
  apply add_nonneg_class.
  - apply mul_finite_nonneg_class; [eexists; eexists; reflexivity|].
    apply (sphere_nonneg_class (sub_arrays (square (removelast x)) (tl x))).
    apply sub_arrays_square_numbers;
      [apply Forall_removelast|apply Forall_tl]; exact Hx.
  - apply (sphere_nonneg_class (sub_scalar (removelast x) 1)).
    apply sub_scalar_one_numbers, Forall_removelast, Hx.
Qed.

(** The vector [-1.2, 1] is finite: [rosenbrock] is about 24.2 there. *)
Lemma rosenbrock_nonneg_witness :
  forallb is_finite [-1.2; 1] = true /\
  (0 <=? @rosenbrock ref_kernels [-1.2; 1]) = true /\
  (24.1 <? @rosenbrock ref_kernels [-1.2; 1]) = true /\
  (@rosenbrock ref_kernels [-1.2; 1] <? 24.3) = true.
Proof.
  assert (forallb is_finite [-1.2; 1] = true) as Hx by reflexivity.
  split; [exact Hx|].
  split; [exact (rosenbrock_nonneg ref_kernels [-1.2; 1] Hx)|].
  split; reflexivity.
Defined.

(** X18: in every dimension in which the weights are finite, [ellipsoid]
    is 0 at the origin. *)
Theorem ellipsoid_at_origin (K : Kernels) (L : Libm) (d : nat) :
  forallb is_finite (ellipsoid_weights d) = true ->
  ellipsoid (zeros d) = 0.
Proof.
  intros Hf. unfold ellipsoid, zeros.
  rewrite repeat_length, square_zeros.
  apply dot_zero_terms, zero_terms_finite, Hf.
Qed.

(** Dimension 4 with the reference library. *)
Lemma ellipsoid_at_origin_witness :
  forallb is_finite (@ellipsoid_weights ref_libm 4) = true /\
  @ellipsoid ref_kernels ref_libm (zeros 4) = 0.
Proof.
  assert (forallb is_finite (@ellipsoid_weights ref_libm 4) = true) as Hf
    by (vm_compute; reflexivity).
  split; [exact Hf|exact (ellipsoid_at_origin ref_kernels ref_libm 4 Hf)].
Defined.

(** X19: [altellipsoid] is [ellipsoid] with the axes in reverse order:
    [altellipsoid(y[::-1])] is [ellipsoid(y)] for every y, and in dimension
    d >= 2 with finite weights it returns 10^6 on the first vector of the
    standard basis and 1 on the last. *)
Theorem altellipsoid_reverses (K : Kernels) (L : Libm) (d : nat) (y : vec) :
  (2 <= d)%nat ->
  forallb is_finite (ellipsoid_weights d) = true ->
  altellipsoid (rev y) = ellipsoid y /\
  altellipsoid (basis_first d) = 1000000 /\
  altellipsoid (basis_last d) = 1.
Proof.
  intros Hd Hf. unfold altellipsoid.
  split; [rewrite rev_involutive; reflexivity|].
  destruct d as [|[|n]]; [lia|lia|].
  destruct (ellipsoid_first_last n Hf) as [H1 H2].
  unfold basis_first, basis_last.
  replace (S (S n) - 1)%nat with (S n) by lia.
  split.
  - change (rev (1 :: repeat 0 (S n))) with (rev (repeat 0 (S n)) ++ [1]).
    rewrite rev_repeat_same. exact H2.
  - rewrite rev_unit, rev_repeat_same. exact H1.
Qed.

(** Dimension 3 with the reference library. *)
Lemma altellipsoid_reverses_witness :
  (2 <= 3)%nat /\
  forallb is_finite (@ellipsoid_weights ref_libm 3) = true /\
  @altellipsoid ref_kernels ref_libm [1; 0; 0] = 1000000 /\
  @altellipsoid ref_kernels ref_libm [0; 0; 1] = 1.
Proof.
  assert (2 <= 3)%nat as Hd by lia.
  assert (forallb is_finite (@ellipsoid_weights ref_libm 3) = true) as Hf
    by (vm_compute; reflexivity).
  split; [exact Hd|]. split; [exact Hf|].
  exact (proj2 (altellipsoid_reverses ref_kernels ref_libm 3 [] Hd Hf)).
Defined.

(** X20: [maxdeceptive] raises exactly on the empty vector, where
    [np.max] has nothing to reduce, while [sumdeceptive] returns 0 there;
    any value [maxdeceptive] returns is the deceptive term of one of the
    coordinates, and on a single coordinate it is the value of
    [sumdeceptive]. *)
Theorem maxdeceptive_is_a_term
    (K : Kernels) (L : Libm) (x : vec) (v : float) :
  (maxdeceptive x = Raise ValueError <-> x = []) /\
  sumdeceptive [] = 0 /\
  (forall m, maxdeceptive x = Ok m -> In m (map deceptive_term x)) /\
  maxdeceptive [v] = Ok (sumdeceptive [v]).
Proof.
  unfold maxdeceptive, sumdeceptive, np_max.
  split; [|split; [exact sum_nil|split]].
  - destruct x; cbn [map]; split; intros H; try reflexivity; discriminate.
  - intros m. destruct x as [|a t]; cbn [map]; [discriminate|].
    intros H. injection H as <-. apply fold_maximum_In.
  - cbn [map fold_left].
    rewrite (sum_single _ (deceptive_term_not_neg_zero v)). reflexivity.
Qed.

(** X21: with a finite sample and noise level 0, [st0] returns a float
    that compares equal to the value before noise, provided that value is
    a number: the noise term is a zero. *)
Theorem st0_is_noise_free (K : Kernels) (x : vec) (z : float) :
  is_finite z = true ->
  is_nan (styblinksitang_base x) = false ->
  (st0 x z =? styblinksitang_base x) = true.
Proof.
  intros Hz Hb. unfold st0, _styblinksitang.
  fold (styblinksitang_base x).
  apply add_zero_eqb; [apply number_not_nan, Hb|apply zero_mul_finite, Hz].
Qed.

(** The sample -0.7 on the vector [1, -2]. *)
Lemma st0_is_noise_free_witness :
  is_finite (-0.7) = true /\
  is_nan (@styblinksitang_base ref_kernels [1; -2]) = false /\
  (@st0 ref_kernels [1; -2] (-0.7) =? @styblinksitang_base ref_kernels [1; -2])
  = true.
Proof.
  assert (is_finite (-0.7) = true) as Hz by reflexivity.
  assert (is_nan (@styblinksitang_base ref_kernels [1; -2]) = false) as Hb
    by reflexivity.
  split; [exact Hz|]. split; [exact Hb|].
  exact (st0_is_noise_free ref_kernels [1; -2] (-0.7) Hz Hb).
Defined.

(** X22: [schwefel_1_2] is 0 at the origin of every dimension, and each
    translated sphere is 0 at its own centre: [sphere1] at the vector of
    ones, [sphere2] at the vector of twos and [sphere4] at the vector of
    fours. *)
Theorem sphere_family_centres (K : Kernels) (d : nat) :
  schwefel_1_2 (zeros d) = 0 /\
  sphere1 (repeat 1 d) = 0 /\
  sphere2 (repeat 2 d) = 0 /\
  sphere4 (repeat 4 d) = 0.
Proof.
  unfold schwefel_1_2, sphere1, sphere2, sphere4.
  rewrite !sub_scalar_repeat.
  change (1 - 1) with 0. change (2 - 2) with 0. change (4 - 4) with 0.
  fold (zeros d). rewrite sphere_zeros.
  split; [|repeat split; reflexivity].
  unfold zeros. destruct d as [|k]; [exact (sphere_zeros 0)|].
  cbn [repeat cumsum]. rewrite cumsum_from_zeros.
  exact (sphere_zeros (S k)).
Qed.

(** X23: on the empty vector [ackley] divides the Python float
    [sphere(x)] by the Python integer [dim == 0] and raises
    [ZeroDivisionError], for every mathematical library. *)
Theorem ackley_empty (K : Kernels) (L : Libm) :
  ackley [] = Raise ZeroDivisionError.
Proof. reflexivity. Qed.
